(** * AI-Log-Analyst: the ingestion, search and timeline code of [src/api]

    A shallow embedding of [src/api/timeline.py], [src/api/embedder.py] and
    [src/api/ingest_utils.py].  Python values that the code inspects are
    modelled by [json] (the results of [json.loads]; [JNull] is Python's
    [None]); a Python [str] is a [string] whose characters ([ascii], 8 bits)
    are its code points, so the text modelled is text of code points below
    256; Python exceptions are the [Err] branch of [res]; the external
    collaborators (the vector store, the embedding model, the registry
    parser) are inputs of the functions that call them. *)

From Stdlib Require Import String Ascii List ZArith Lia Bool.
From Stdlib Require Decimal DecimalNat.
From Stdlib Require Import Sorted Permutation FinFun.
Import ListNotations.

Local Open Scope string_scope.
Local Set Warnings "-register-all,-abstract-large-number".

(* ------------------------------------------------------------------ *)
(** ** Python exceptions and the error monad *)

Inductive exn : Type :=
| TypeError
| ValueError
| AttributeError
| IndexError
| KeyError
| UnicodeDecodeError
| OSError  (* and its subclasses: PermissionError, IsADirectoryError, ... *).

Inductive res (A : Type) : Type :=
| Ok (a : A)
| Err (e : exn).
Arguments Ok {A} a.
Arguments Err {A} e.

Definition bind {A B : Type} (m : res A) (k : A -> res B) : res B :=
  match m with
  | Ok a => k a
  | Err e => Err e
  end.

Notation "'let*' x ':=' m 'in' k" := (bind m (fun x => k))
  (at level 200, x name, m at level 100, k at level 200).

(** [try: body except Exception: handler(e)] *)
Definition try_except {A : Type} (body : res A) (handler : exn -> res A) : res A :=
  match body with
  | Ok a => Ok a
  | Err e => handler e
  end.

(** A Python [for] loop over a list that accumulates, stopping at the first
    exception. *)
Fixpoint for_each {A S : Type} (l : list A) (st : S) (body : S -> A -> res S) : res S :=
  match l with
  | [] => Ok st
  | x :: l' => let* st' := body st x in for_each l' st' body
  end.

(* ------------------------------------------------------------------ *)
(** ** Values produced by [json.loads] *)

(** JSON numbers are integers here; an object is the insertion-ordered
    Python dict [json.loads] builds, as an association list with distinct
    keys. *)
Inductive json : Type :=
| JNull
| JBool (b : bool)
| JNum (z : Z)
| JStr (s : string)
| JArr (l : list json)
| JObj (kvs : list (string * json)).

Fixpoint assoc_lookup {A : Type} (k : string) (kvs : list (string * A)) : option A :=
  match kvs with
  | [] => None
  | (k', v) :: kvs' => if String.eqb k k' then Some v else assoc_lookup k kvs'
  end.

(** Python truthiness ([bool(x)]). *)
Definition truthy (v : json) : bool :=
  match v with
  | JNull => false
  | JBool b => b
  | JNum z => negb (Z.eqb z 0)
  | JStr s => negb (String.eqb s "")
  | JArr l => negb (Nat.eqb (length l) 0)
  | JObj kvs => negb (Nat.eqb (length kvs) 0)
  end.

(** [x or d] *)
Definition py_or (x d : json) : json := if truthy x then x else d.

(** [evt.get(k, d)]: only a dict has [.get]. *)
Definition dict_get (evt : json) (k : string) (d : json) : res json :=
  match evt with
  | JObj kvs =>
      match assoc_lookup k kvs with
      | Some v => Ok v
      | None => Ok d
      end
  | _ => Err AttributeError
  end.

(** [evt.get(k)] *)
Definition get (evt : json) (k : string) : res json := dict_get evt k JNull.

(* ------------------------------------------------------------------ *)
(** ** Strings: [str()], [strip()], [lower()], [endswith()], [join()] *)

Fixpoint string_of_uint (d : Decimal.uint) : string :=
  match d with
  | Decimal.Nil => ""
  | Decimal.D0 d' => String "0" (string_of_uint d')
  | Decimal.D1 d' => String "1" (string_of_uint d')
  | Decimal.D2 d' => String "2" (string_of_uint d')
  | Decimal.D3 d' => String "3" (string_of_uint d')
  | Decimal.D4 d' => String "4" (string_of_uint d')
  | Decimal.D5 d' => String "5" (string_of_uint d')
  | Decimal.D6 d' => String "6" (string_of_uint d')
  | Decimal.D7 d' => String "7" (string_of_uint d')
  | Decimal.D8 d' => String "8" (string_of_uint d')
  | Decimal.D9 d' => String "9" (string_of_uint d')
  end.

(** [str(i)] for a non-negative [int] used as an index. *)
Definition str_nat (n : nat) : string := string_of_uint (Nat.to_uint n).

(** [str(z)] for a Python [int]. *)
Definition str_Z (z : Z) : string :=
  match Z.to_int z with
  | Decimal.Pos d => string_of_uint d
  | Decimal.Neg d => "-" ++ string_of_uint d
  end.

(** [sep.join(xs)] *)
Fixpoint join (sep : string) (xs : list string) : string :=
  match xs with
  | [] => ""
  | [x] => x
  | x :: xs' => x ++ sep ++ join sep xs'
  end.

Definition hex_digit (n : nat) : ascii :=
  ascii_of_nat (if Nat.ltb n 10 then 48 + n else 87 + n).

(** One character inside [repr(s)] quoted with [q]: the quote and the
    backslash are escaped, tab, newline and carriage return get their short
    escapes, and the characters [str.isprintable] rejects ([< 0x20], [0x7f],
    [0x80]-[0xa0], [0xad]) become [\xhh]. *)
Definition repr_char (q c : ascii) : string :=
  let n := nat_of_ascii c in
  if Ascii.eqb c q || Nat.eqb n 92 then String (ascii_of_nat 92) (String c EmptyString)
  else if Nat.eqb n 9 then "\t"
  else if Nat.eqb n 10 then "\n"
  else if Nat.eqb n 13 then "\r"
  else if Nat.ltb n 32 || Nat.eqb n 127 || (Nat.leb 128 n && Nat.leb n 160) || Nat.eqb n 173
  then String (ascii_of_nat 92) (String "x" (String (hex_digit (n / 16))
         (String (hex_digit (n mod 16)) EmptyString)))
  else String c EmptyString.

(** [repr(s)] of a [str]: double quotes when [s] contains a single quote
    and no double quote, single quotes otherwise. *)
Definition py_repr_str (s : string) : string :=
  let cs := list_ascii_of_string s in
  let sq := ascii_of_nat 39 in
  let dq := ascii_of_nat 34 in
  let q := if existsb (Ascii.eqb sq) cs && negb (existsb (Ascii.eqb dq) cs) then dq else sq in
  String q (String.concat "" (map (repr_char q) cs) ++ String q EmptyString).

(** [str(v)] of a JSON value, as an f-string formats it: the [repr] of a
    container, whose strings are [repr]-quoted. *)
Fixpoint py_repr (v : json) : string :=
  match v with
  | JNull => "None"
  | JBool true => "True"
  | JBool false => "False"
  | JNum z => str_Z z
  | JStr s => py_repr_str s
  | JArr l => "[" ++ join ", " (map py_repr l) ++ "]"
  | JObj kvs =>
      "{" ++ join ", " (map (fun kv => py_repr_str (fst kv) ++ ": " ++ py_repr (snd kv)) kvs)
      ++ "}"
  end.

Definition py_str (v : json) : string :=
  match v with
  | JStr s => s
  | _ => py_repr v
  end.

(** [c.isspace()] for a code point below 256. *)
Definition is_space (c : ascii) : bool :=
  match nat_of_ascii c with
  | 9 | 10 | 11 | 12 | 13 | 28 | 29 | 30 | 31 | 32 | 133 | 160 => true
  | _ => false
  end.

Fixpoint lstrip_l (cs : list ascii) : list ascii :=
  match cs with
  | c :: cs' => if is_space c then lstrip_l cs' else cs
  | [] => []
  end.

(** [s.strip()]: removes the characters [str.isspace] accepts at both ends. *)
Definition strip (s : string) : string :=
  string_of_list_ascii (rev (lstrip_l (rev (lstrip_l (list_ascii_of_string s))))).

(** [c.lower()] for a code point below 256: [A]-[Z] and the Latin-1
    capitals [0xc0]-[0xde] except [0xd7]. *)
Definition lower_ascii (c : ascii) : ascii :=
  let n := nat_of_ascii c in
  if (65 <=? n)%nat && (n <=? 90)%nat
     || (192 <=? n)%nat && (n <=? 222)%nat && negb (Nat.eqb n 215)
  then ascii_of_nat (n + 32) else c.

(** [s.lower()] *)
Definition lower (s : string) : string :=
  string_of_list_ascii (map lower_ascii (list_ascii_of_string s)).

(** [s.endswith(suf)] *)
Definition endswith (s suf : string) : bool :=
  let n := String.length s in
  let m := String.length suf in
  (m <=? n)%nat && String.eqb (substring (n - m) m s) suf.

(** [sub in s] for strings *)
Fixpoint str_contains (s sub : string) : bool :=
  String.prefix sub s ||
  match s with
  | EmptyString => false
  | String _ s' => str_contains s' sub
  end.

(* ------------------------------------------------------------------ *)
(** ** [datetime] *)

(** A [datetime.datetime]; [tzinfo] is a fixed UTC offset in minutes
    ([None] for a naive datetime). *)
Record datetime : Type := mk_datetime {
  year : Z; month : Z; day : Z;
  hour : Z; minute : Z; second : Z; microsecond : Z;
  tzinfo : option Z
}.

(** [dt.replace(tzinfo=None)] *)
Definition replace_tz_none (dt : datetime) : datetime :=
  mk_datetime (year dt) (month dt) (day dt) (hour dt) (minute dt) (second dt)
    (microsecond dt) None.

(** [datetime(y, m, d)] *)
Definition datetime3 (y m d : Z) : datetime := mk_datetime y m d 0 0 0 0 None.

Definition MAXYEAR : Z := 9999.

Fixpoint lex_lt (a b : list Z) : bool :=
  match a, b with
  | x :: a', y :: b' => (x <? y)%Z || ((x =? y)%Z && lex_lt a' b')
  | _, _ => false
  end.

Definition dt_fields (dt : datetime) : list Z :=
  [year dt; month dt; day dt; hour dt; minute dt; second dt; microsecond dt].

(** [a < b] on naive datetimes: lexicographic on the fields. *)
Definition dt_lt (a b : datetime) : bool := lex_lt (dt_fields a) (dt_fields b).

(* ------------------------------------------------------------------ *)
(** ** [datetime.fromisoformat] (Python 3.11)

    The forms [YYYY-MM-DD] and [YYYY-MM-DD?HH:MM:SS], where [?] is any
    single separator character, optionally followed by [Z] or by
    [+HH:MM] / [-HH:MM].  Other ISO forms that Python also accepts
    (fractional seconds, [HH:MM], basic format) give [ValueError] here;
    the theorems about [_parse_timestamp] below hold for any
    [fromisoformat], and only the concrete examples use this one. *)

Definition digit_val (c : ascii) : option Z :=
  let n := nat_of_ascii c in
  if (48 <=? n)%nat && (n <=? 57)%nat then Some (Z.of_nat (n - 48)) else None.

Fixpoint take_digits (n : nat) (cs : list ascii) (acc : Z) : option (Z * list ascii) :=
  match n with
  | O => Some (acc, cs)
  | S n' =>
      match cs with
      | c :: cs' =>
          match digit_val c with
          | Some d => take_digits n' cs' (acc * 10 + d)
          | None => None
          end
      | [] => None
      end
  end.

Definition expect (c : ascii) (cs : list ascii) : option (list ascii) :=
  match cs with
  | c' :: cs' => if Ascii.eqb c c' then Some cs' else None
  | [] => None
  end.

Definition obind {A B : Type} (m : option A) (k : A -> option B) : option B :=
  match m with Some a => k a | None => None end.

Notation "'let?' x ':=' m 'in' k" := (obind m (fun x => k))
  (at level 200, x pattern, m at level 100, k at level 200).

(** [HH:MM] *)
Definition parse_hh_mm (cs : list ascii) : option (Z * Z * list ascii) :=
  let? (hh, r1) := take_digits 2 cs 0 in
  let? r2 := expect ":" r1 in
  let? (mm, r3) := take_digits 2 r2 0 in
  Some (hh, mm, r3).

(** The offset suffix, in minutes. *)
Definition parse_tz (cs : list ascii) : option (option Z) :=
  match cs with
  | [] => Some None
  | ["Z"%char] => Some (Some 0%Z)
  | c :: rest =>
      let sgn := if Ascii.eqb c "+" then Some 1%Z
                 else if Ascii.eqb c "-" then Some (-1)%Z else None in
      let? s := sgn in
      let? (hh, mm, r) := parse_hh_mm rest in
      match r with
      | [] => if (hh <? 24)%Z && (mm <? 60)%Z then Some (Some (s * (hh * 60 + mm))%Z)
              else None
      | _ => None
      end
  end.

Definition is_leap (y : Z) : bool :=
  (Z.eqb (y mod 4) 0 && negb (Z.eqb (y mod 100) 0)) || Z.eqb (y mod 400) 0.

Definition days_in_month (y m : Z) : Z :=
  if Z.eqb m 2 then (if is_leap y then 29 else 28)
  else if existsb (Z.eqb m) [4; 6; 9; 11]%Z then 30 else 31.

Definition valid_datetime (dt : datetime) : bool :=
  (1 <=? year dt)%Z && (year dt <=? MAXYEAR)%Z &&
  (1 <=? month dt)%Z && (month dt <=? 12)%Z &&
  (1 <=? day dt)%Z && (day dt <=? days_in_month (year dt) (month dt))%Z &&
  (0 <=? hour dt)%Z && (hour dt <? 24)%Z &&
  (0 <=? minute dt)%Z && (minute dt <? 60)%Z &&
  (0 <=? second dt)%Z && (second dt <? 60)%Z.

Definition parse_iso (cs : list ascii) : option datetime :=
  let? (y, r1) := take_digits 4 cs 0 in
  let? r2 := expect "-" r1 in
  let? (mo, r3) := take_digits 2 r2 0 in
  let? r4 := expect "-" r3 in
  let? (d, r5) := take_digits 2 r4 0 in
  match r5 with
  | [] => Some (mk_datetime y mo d 0 0 0 0 None)
  | _ :: r6 =>
      let? (h, mi, r7) := parse_hh_mm r6 in
      let? r8 := expect ":" r7 in
      let? (sec, r9) := take_digits 2 r8 0 in
      let? tz := parse_tz r9 in
      Some (mk_datetime y mo d h mi sec 0 tz)
  end.

Definition py_fromisoformat (s : string) : res datetime :=
  match parse_iso (list_ascii_of_string s) with
  | Some dt => if valid_datetime dt then Ok dt else Err ValueError
  | None => Err ValueError
  end.

(* ------------------------------------------------------------------ *)
(** ** The timeline ([src/api/timeline.py]) *)

Section Timeline.

(** [datetime.fromisoformat] on a [str]. *)
Variable fromisoformat : string -> res datetime.

(** [datetime.fromisoformat(ts)] for any value: a non-[str] argument
    raises [TypeError]. *)
Definition fromisoformat_any (ts : json) : res datetime :=
  match ts with
  | JStr s => fromisoformat s
  | _ => Err TypeError
  end.

(** [_parse_timestamp(ts)] *)
Definition _parse_timestamp (ts : json) : res (option datetime) :=
  if negb (truthy ts) then Ok None
  else
    try_except
      (let* dt := fromisoformat_any ts in
       let dt := match tzinfo dt with
                 | Some _ => replace_tz_none dt
                 | None => dt
                 end in
       Ok (Some dt))
      (fun _ => Ok None).

(** A step of [with open(path, "r", encoding="utf-8") as f: for line in f]
    as the loading loop sees it: a line that is blank after [strip()], one
    rejected by [json.loads], the value [json.loads] returns, or the
    exception that [open] or the iteration raises at that point
    ([UnicodeDecodeError] on bytes that are not UTF-8; [OSError] when the
    entry is a directory or cannot be read, which [open] raises before the
    first line).  Nothing after a [JLReadError] is ever reached. *)
Inductive jline : Type :=
| JLBlank
| JLMalformed
| JLValue (v : json)
| JLReadError (e : exn).

(** The entries of a directory in [os.listdir] order: name and what
    iterating over the opened file yields. *)
Definition listing : Type := list (string * list jline).

(** The two artifact directories the timeline reads: [None] when
    [os.path.isdir] is false, otherwise the result of [os.listdir] (an
    [OSError] when the directory cannot be listed). *)
Record timeline_case : Type := mk_timeline_case {
  evtx_dir : option (res listing);      (* case_dir/artifacts/evtx *)
  registry_dir : option (res listing)   (* case_dir/artifacts/registry *)
}.

(** The ["timestamp"] value of an event: [ts.isoformat()] of a known
    instant, or the string ["UNKNOWN_TIME"]. *)
Inductive ts_field : Type :=
| TKnown (dt : datetime)
| TUnknownTime.

(** A timeline dict while it still carries ["sort_ts"]. *)
Record entry : Type := mk_entry {
  e_timestamp : ts_field;
  sort_ts : datetime;
  e_source : string;
  e_channel : json;
  e_computer : json;
  e_event_id : json;
  e_description : string
}.

(** A returned timeline dict, after [e.pop("sort_ts", None)]. *)
Record event : Type := mk_event {
  timestamp : ts_field;
  source : string;
  channel : json;
  computer : json;
  event_id : json;
  description : string
}.

Definition pop_sort_ts (e : entry) : event :=
  mk_event (e_timestamp e) (e_source e) (e_channel e) (e_computer e)
    (e_event_id e) (e_description e).

(** [key in data] *)
Definition py_contains (d : json) (k : string) : res bool :=
  match d with
  | JObj kvs => Ok (match assoc_lookup k kvs with Some _ => true | None => false end)
  | JArr l => Ok (existsb (fun v => match v with JStr s => String.eqb s k | _ => false end) l)
  | JStr s => Ok (str_contains s k)
  | _ => Err TypeError
  end.

(** [data[key]] *)
Definition py_getitem (d : json) (k : string) : res json :=
  match d with
  | JObj kvs => match assoc_lookup k kvs with Some v => Ok v | None => Err KeyError end
  | _ => Err TypeError
  end.

(** [data.items()] *)
Definition py_items (d : json) : res (list (string * json)) :=
  match d with
  | JObj kvs => Ok kvs
  | _ => Err AttributeError
  end.

(** [f"{k}={v}"] *)
Definition kv_piece (k : string) (v : json) : string := k ++ "=" ++ py_str v.

Definition EVTX_KEYS : list string :=
  ["SubjectUserName"; "SubjectDomainName"; "TargetUserName"; "IpAddress";
   "ProcessName"; "CommandLine"; "ServiceName"; "EventType"; "LogonType"].

(** The [pieces] list of [_load_evtx_events]. *)
Definition evtx_pieces (data : json) : res (list string) :=
  let* pieces :=
    for_each EVTX_KEYS [] (fun pieces key =>
      let* b := py_contains data key in
      if b then
        let* v := py_getitem data key in
        Ok (if truthy v then app pieces [kv_piece key v] else pieces)
      else Ok pieces) in
  match pieces with
  | [] =>
      let* items := py_items data in
      Ok (fold_left (fun pieces kv =>
            if truthy (snd kv) then app pieces [kv_piece (fst kv) (snd kv)] else pieces)
          (firstn 5 items) [])
  | _ => Ok pieces
  end.

(** [description = " ".join(pieces)] *)
Definition evtx_description (data : json) : res string :=
  let* pieces := evtx_pieces data in Ok (join " " pieces).

(** The body of the line loop of [_load_evtx_events]. *)
Definition evtx_line (timeline : list entry) (l : jline) : res (list entry) :=
  match l with
  | JLBlank | JLMalformed => Ok timeline
  | JLReadError e => Err e
  | JLValue evt =>
      let* t := get evt "timestamp" in
      let* ts := _parse_timestamp t in
      match ts with
      | None => Ok timeline
      | Some ts =>
          let* eid := get evt "event_id" in
          let* ch := get evt "channel" in
          let* co := get evt "computer" in
          let* da := get evt "data" in
          let channel := py_or ch (JStr "") in
          let computer := py_or co (JStr "") in
          let data := py_or da (JObj []) in
          let* description := evtx_description data in
          Ok (app timeline [mk_entry (TKnown ts) ts "evtx" channel computer eid description])
      end
  end.

(** The loop over the entries of a listing whose lower-cased name ends in
    [.jsonl]; a [JLReadError] step makes the line body raise its exception,
    which propagates out of the loop as it does in the source. *)
Definition jsonl_loop (files : listing) (line_body : list entry -> jline -> res (list entry))
  : res (list entry) :=
  for_each files [] (fun acc f =>
    if negb (endswith (lower (fst f)) ".jsonl") then Ok acc
    else for_each (snd f) acc line_body).

(** [_load_evtx_events(case_dir)] *)
Definition _load_evtx_events (c : timeline_case) : res (list entry) :=
  match evtx_dir c with
  | None => Ok []
  | Some ls => let* files := ls in jsonl_loop files evtx_line
  end.

(** The f-string [description] of [_load_registry_events]. *)
Definition registry_description (category hive key_path value_name value : json) : string :=
  "category=" ++ py_str category ++ " HIVE=" ++ py_str hive ++ " Key=" ++ py_str key_path
  ++ " Name=" ++ py_str value_name ++ " Value=" ++ py_str value.

(** The body of the line loop of [_load_registry_events]. *)
Definition registry_line (events : list entry) (l : jline) : res (list entry) :=
  match l with
  | JLBlank | JLMalformed => Ok events
  | JLReadError e => Err e
  | JLValue evt =>
      let* h := get evt "hive" in
      let* ca := get evt "category" in
      let* kp := get evt "key_path" in
      let* vn := get evt "value_name" in
      let* value := dict_get evt "value" (JStr "") in
      let hive := py_or h (JStr "UNKNOWN_HIVE") in
      let category := py_or ca (JStr "registry") in
      let key_path := py_or kp (JStr "") in
      let value_name := py_or vn (JStr "") in
      let* lw := get evt "last_write" in
      let* ts_obj := match lw with
                     | JStr _ => _parse_timestamp lw
                     | _ => Ok None
                     end in
      let '(ts_obj, ts_str) :=
        match ts_obj with
        | None => (datetime3 MAXYEAR 12 31, TUnknownTime)
        | Some t => (t, TKnown t)
        end in
      let description := registry_description category hive key_path value_name value in
      Ok (app events [mk_entry ts_str ts_obj "registry" (JStr "") (JStr "") JNull description])
  end.

(** [_load_registry_events(case_dir)] *)
Definition _load_registry_events (c : timeline_case) : res (list entry) :=
  match registry_dir c with
  | None => Ok []
  | Some ls => let* files := ls in jsonl_loop files registry_line
  end.

(** [events.sort(key=lambda e: e["sort_ts"])]: Python's sort is stable, so
    its result is the stable insertion sort by [sort_ts] under [<]. *)
Fixpoint insert_by_ts (x : entry) (l : list entry) : list entry :=
  match l with
  | [] => [x]
  | y :: l' => if dt_lt (sort_ts x) (sort_ts y) then x :: l else y :: insert_by_ts x l'
  end.

Definition sort_by_ts (l : list entry) : list entry :=
  fold_left (fun acc x => insert_by_ts x acc) l [].

(** [build_timeline(case_dir)] up to the sort, before ["sort_ts"] is
    dropped. *)
Definition build_timeline_sorted (c : timeline_case) : res (list entry) :=
  let* evtx := _load_evtx_events c in
  let* reg := _load_registry_events c in
  Ok (sort_by_ts (app evtx reg)).

(** [build_timeline(case_dir)] *)
Definition build_timeline (c : timeline_case) : res (list event) :=
  let* events := build_timeline_sorted c in
  Ok (map pop_sort_ts events).

End Timeline.

(* ------------------------------------------------------------------ *)
(** ** The vector index ([src/api/embedder.py]) *)

(** [[f"{case_id}_{i}" for i in range(len(texts))]] *)
Definition embed_ids (case_id : string) (n : nat) : list string :=
  map (fun i => case_id ++ "_" ++ str_nat i) (seq 0 n).

(** The metadata dict of a chunk: ["source"], ["case_id"], ["file"]. *)
Record meta : Type := mk_meta {
  m_source : string;
  m_case_id : string;
  m_file : string
}.

(** One [coll.add(...)] call received by the store (its [embeddings] are the
    model's vectors for [a_documents]). *)
Record add_call : Type := mk_add_call {
  a_collection : string;
  a_ids : list string;
  a_documents : list string;
  a_metadatas : list meta
}.

(** [_get_collection(case_id)]: the collection name. *)
Definition collection_name (case_id : string) : string := "case_" ++ case_id.

(** [embed_texts(case_id, texts, metadata_list)]: the [coll.add] call it
    makes, none for an empty [texts]. *)
Definition embed_texts (case_id : string) (texts : list string) (metadata_list : list meta)
  : option add_call :=
  match texts with
  | [] => None
  | _ => Some (mk_add_call (collection_name case_id) (embed_ids case_id (length texts))
                 texts metadata_list)
  end.

Section Search.

(** The store's distance values and metadata dicts are passed through
    untouched, so their types are left abstract. *)
Context {D M : Type}.

(** The dict [coll.query(query_embeddings=[q_emb], n_results=top_k)]
    returns: one row per query embedding. *)
Record query_result : Type := mk_query_result {
  q_ids : list (list string);
  q_distances : list (list D);
  q_documents : list (list string);
  q_metadatas : list (list M)
}.

Inductive hit_value : Type :=
| HStr (s : string)
| HDist (d : D)
| HMeta (m : M).

(** A hit dict. *)
Definition hit : Type := list (string * hit_value).

(** [l[i]] *)
Definition index {A : Type} (l : list A) (i : nat) : res A :=
  match nth_error l i with
  | Some a => Ok a
  | None => Err IndexError
  end.

(** [semantic_search(case_id, query, top_k)], given the store's reply [res]
    to the query it sends: the dict [{"results": hits}]. *)
Definition semantic_search (r : query_result) : res (list (string * list hit)) :=
  let* ids0 := index (q_ids r) 0 in
  let* hits :=
    for_each (seq 0 (length ids0)) [] (fun hits i =>
      let* ids := index (q_ids r) 0 in
      let* id := index ids i in
      let* ds := index (q_distances r) 0 in
      let* d := index ds i in
      let* docs := index (q_documents r) 0 in
      let* doc := index docs i in
      let* ms := index (q_metadatas r) 0 in
      let* m := index ms i in
      Ok (List.app hits [[("id", HStr id); ("score", HDist d); ("text", HStr doc);
                          ("metadata", HMeta m)]])) in
  Ok [("results", hits)].

End Search.

(* ------------------------------------------------------------------ *)
(** ** Corpus building ([src/api/ingest_utils.py]) *)

(** Text mode's universal newlines: ["\r\n"] and ["\r"] read as ["\n"]. *)
Definition is_cr (c : ascii) : bool := Nat.eqb (nat_of_ascii c) 13.
Definition is_lf (c : ascii) : bool := Nat.eqb (nat_of_ascii c) 10.
Definition LF : ascii := ascii_of_nat 10.

Fixpoint universal_nl (cs : list ascii) : list ascii :=
  match cs with
  | [] => []
  | c :: r =>
      if is_cr c then
        match r with
        | c2 :: r2 => if is_lf c2 then LF :: universal_nl r2 else LF :: universal_nl r
        | [] => [LF]
        end
      else c :: universal_nl r
  end.

Fixpoint split_lf (cs cur : list ascii) : list (list ascii) :=
  match cs with
  | [] => [rev cur]
  | c :: cs' => if is_lf c then rev cur :: split_lf cs' [] else split_lf cs' (c :: cur)
  end.

(** [f.read()] on a file opened in text mode. *)
Definition read_text (contents : string) : string :=
  string_of_list_ascii (universal_nl (list_ascii_of_string contents)).

(** [for line in f] on a file opened in text mode (lines without their
    newline; [strip()] removes it anyway). *)
Definition file_lines (contents : string) : list string :=
  map string_of_list_ascii (split_lf (universal_nl (list_ascii_of_string contents)) []).

(** [os.path.splitext(filename)[1]]: from the last dot, unless every
    character before it is a dot. *)
Definition splitext_ext (filename : string) : string :=
  let cs := list_ascii_of_string filename in
  let fix go (rcs : list ascii) (ext : list ascii) : string :=
    match rcs with
    | [] => ""
    | c :: rcs' =>
        if Ascii.eqb c "." then
          if existsb (fun c' => negb (Ascii.eqb c' ".")) rcs'
          then string_of_list_ascii (c :: ext) else ""
        else go rcs' (c :: ext)
    end in
  go (rev cs) [].

Definition TEXT_EXTENSIONS : list string := [".txt"; ".log"; ".json"; ".csv"; ".md"].
Definition REGISTRY_EXTENSIONS : list string := [".dat"; ".hiv"; ".hive"; ".reg"].

Definition mem_str (x : string) (l : list string) : bool := existsb (String.eqb x) l.

(** The case directory: every regular file with its path components
    relative to [case_dir] and its text (decoded with [errors="ignore"]),
    in [os.walk] order. *)
Definition case_files : Type := list (list string * string).

(** [os.listdir(os.path.join(case_dir, "artifacts", "evtx"))], files only. *)
Fixpoint evtx_txt_listing (fs : case_files) : list (string * string) :=
  match fs with
  | [] => []
  | (["artifacts"; "evtx"; fname], contents) :: fs' => (fname, contents) :: evtx_txt_listing fs'
  | _ :: fs' => evtx_txt_listing fs'
  end.

(** The locals the corpus builder mutates: the two lists and the two open
    summary files (their contents so far). *)
Record ingest_state : Type := mk_ingest_state {
  text_chunks : list string;
  metadata_list : list meta;
  evtx_summary_f : string;
  reg_summary_f : string
}.

Definition add_chunk (st : ingest_state) (line : string) (m : meta) : ingest_state :=
  mk_ingest_state (List.app (text_chunks st) [line]) (List.app (metadata_list st) [m])
    (evtx_summary_f st) (reg_summary_f st).

Definition write_reg_summary (st : ingest_state) (s : string) : ingest_state :=
  mk_ingest_state (text_chunks st) (metadata_list st) (evtx_summary_f st)
    (reg_summary_f st ++ s).

(** What a run leaves behind: the summary files, the [coll.add] calls made
    through [embed_texts], and the returned count. *)
Record ingest_result : Type := mk_ingest_result {
  evtx_summaries_jsonl : string;
  registry_summaries_jsonl : string;
  r_text_chunks : list string;
  r_add_calls : list add_call;
  r_total : nat
}.

Section Ingest.

(** [generate_registry_derivatives(path, case_dir)]: the ["events_count"]
    it reports and the text of the file it wrote at ["txt_path"]. *)
Variable generate_registry_derivatives : list string -> Z * string.

Definition max_batch : nat := 5000.

Definition NEWLINE : string := String LF "".

(** Step 1: the [.txt] files of [artifacts/evtx], line by line. *)
Definition index_evtx_txt (case_id : string) (case_dir : case_files) (st : ingest_state)
  : ingest_state :=
  fold_left (fun st f =>
    if negb (endswith (fst f) ".txt") then st
    else
      fold_left (fun st raw =>
        let line := strip raw in
        if String.eqb line "" then st
        else add_chunk st line (mk_meta "evtx" case_id ("artifacts/evtx/" ++ fst f)))
        (file_lines (snd f)) st)
    (evtx_txt_listing case_dir) st.

(** Step 2: the body of the [os.walk] loop for one file. *)
Definition walk_file (case_id : string) (st : ingest_state) (f : list string * string)
  : ingest_state :=
  let '(p, contents) := f in
  let filename := last p "" in
  let ext := lower (splitext_ext filename) in
  let rel_path := join "/" p in
  if mem_str filename ["evtx_summaries.jsonl"; "registry_summaries.jsonl"] then st
  else if mem_str ext REGISTRY_EXTENSIONS then
    let '(events_count, txt) := generate_registry_derivatives p in
    if (0 <? events_count)%Z then
      fold_left (fun st raw =>
        let line := strip raw in
        if String.eqb line "" then st
        else write_reg_summary (add_chunk st line (mk_meta "registry" case_id rel_path))
               (line ++ NEWLINE))
        (file_lines txt) st
    else st
  else if mem_str ext TEXT_EXTENSIONS then
    let content := strip (read_text contents) in
    if String.eqb content "" then st
    else add_chunk st content (mk_meta "file" case_id rel_path)
  else st.

(** [range(start, stop, step)] *)
Definition py_range_step (start stop step : nat) : list nat :=
  map (fun k => start + k * step) (seq 0 ((stop - start + step - 1) / step)).

(** [l[s:e]] *)
Definition slice {A : Type} (l : list A) (s e : nat) : list A := firstn (e - s) (skipn s l).

(** Step 3: [embed_texts] on each batch. *)
Definition embed_batches (case_id : string) (text_chunks : list string)
    (metadata_list : list meta) : list add_call :=
  flat_map (fun start =>
    let end_ := start + max_batch in
    match embed_texts case_id (slice text_chunks start end_) (slice metadata_list start end_) with
    | Some c => [c]
    | None => []
    end)
    (py_range_step 0 (length text_chunks) max_batch).

(** [build_and_index_case_corpus(case_dir, case_id)].  Both summary files
    are opened with mode ["w"] after step 1, so they start empty. *)
Definition build_and_index_case_corpus (case_dir : case_files) (case_id : string)
  : ingest_result :=
  let st := index_evtx_txt case_id case_dir (mk_ingest_state [] [] "" "") in
  let st := fold_left (walk_file case_id) case_dir st in
  match text_chunks st with
  | [] => mk_ingest_result (evtx_summary_f st) (reg_summary_f st) [] [] 0
  | chunks =>
      mk_ingest_result (evtx_summary_f st) (reg_summary_f st) chunks
        (embed_batches case_id chunks (metadata_list st)) (length chunks)
  end.

(** Every id a run submits to the store. *)
Definition ingested_ids (case_dir : case_files) (case_id : string) : list string :=
  flat_map a_ids (r_add_calls (build_and_index_case_corpus case_dir case_id)).

End Ingest.

(* ------------------------------------------------------------------ *)
(** ** Concrete inputs *)

(** An event-log derivative record with the given ["timestamp"]. *)
Definition evtx_record (ts : string) : json :=
  JObj [("timestamp", JStr ts); ("event_id", JNum 4624); ("channel", JStr "Security");
        ("computer", JStr "HOST1");
        ("data", JObj [("TargetUserName", JStr "alice"); ("LogonType", JStr "3")])].

(** A registry derivative record with the given ["value"] and, when
    present, ["last_write"]. *)
Definition registry_record (value : json) (last_write : option string) : json :=
  JObj ([("hive", JStr "SOFTWARE"); ("category", JStr "run_key");
         ("key_path", JStr "Microsoft\Windows\CurrentVersion\Run");
         ("value_name", JStr "Updater"); ("value", value)]
        ++ match last_write with Some lw => [("last_write", JStr lw)] | None => [] end)%list.

(** A case whose only derivative is [artifacts/evtx/Security.jsonl]. *)
Definition evtx_case (records : list json) : timeline_case :=
  mk_timeline_case (Some (Ok [("Security.jsonl", map JLValue records)])) None.

(** A case whose only derivative is [artifacts/registry/SOFTWARE.jsonl]. *)
Definition registry_case (records : list json) : timeline_case :=
  mk_timeline_case None (Some (Ok [("SOFTWARE.jsonl", map JLValue records)])).

(** Both sources, one record each (the end-to-end example of the spec). *)
Definition mixed_case : timeline_case :=
  mk_timeline_case (Some (Ok [("Security.jsonl", [JLValue (evtx_record "2024-01-02T10:00:00Z")])]))
    (Some (Ok [("SOFTWARE.jsonl", [JLValue (registry_record (JStr "C:\x.exe") None)])])).

Fixpoint repeat_string (n : nat) (s : string) : string :=
  match n with
  | O => ""
  | S n' => s ++ repeat_string n' s
  end.

(** A naive datetime at whole seconds. *)
Definition naive (y mo d h mi s : Z) : datetime := mk_datetime y mo d h mi s 0 None.


(** A case directory with one plain-text file. *)
Definition notes_case : case_files := [(["notes.txt"], "suspicious logon at 10:00")].

(** A registry parser that produced nothing. *)
Definition no_registry (p : list string) : Z * string := (0%Z, "").

(** An event-log text export with Windows line endings. *)
Definition crlf_log : string :=
  "logon alice" ++ String (ascii_of_nat 13) NEWLINE ++ "logoff alice" ++ String (ascii_of_nat 13) NEWLINE.

(** A case with one event-log text derivative and one registry export. *)
Definition evtx_and_registry_case : case_files :=
  [(["artifacts"; "evtx"; "Security.txt"], "4624 logon alice");
   (["SOFTWARE.reg"], "REGEDIT4")].

(** A registry parser that extracted one line. *)
Definition one_registry_line (p : list string) : Z * string := (1%Z, "HKLM Run Updater").

(* ------------------------------------------------------------------ *)
(** ** Views of the corpus builder's state *)

(** The locals of [build_and_index_case_corpus] when the walk is done. *)
Definition corpus_state (gen : list string -> Z * string) (case_dir : case_files)
    (case_id : string) : ingest_state :=
  fold_left (walk_file gen case_id) case_dir
    (index_evtx_txt case_id case_dir (mk_ingest_state [] [] "" "")).

(** [''.join(xs)] *)
Definition concat_str (xs : list string) : string := fold_right String.append "" xs.

(** The lines written to [registry_summaries.jsonl] for the given
    (chunk, metadata) pairs: each registry chunk followed by a newline. *)
Definition registry_summary_of (pairs : list (string * meta)) : string :=
  concat_str (map (fun cm => fst cm ++ NEWLINE)
                (filter (fun cm => String.eqb (m_source (snd cm)) "registry") pairs)).

(** A chunk as the builder creates it: non-empty and already stripped. *)
Definition chunk_ok (c : string) : Prop := c <> "" /\ strip c = c.

(** The metadata of a chunk of case [case_id]. *)
Definition meta_ok (case_id : string) (m : meta) : Prop :=
  m_case_id m = case_id /\ In (m_source m) ["evtx"; "registry"; "file"].

(** [n] notes files [0.log], [1.log], ... holding one line each. *)
Definition bulk_case (n : nat) : case_files :=
  map (fun i => ([str_nat i ++ ".log"], "x")) (seq 0 n).

(* ------------------------------------------------------------------ *)
(** ** Views of the timeline's input *)

Definition is_value (l : jline) : bool :=
  match l with JLValue _ => true | _ => false end.

Definition is_jsonl_file (f : string * list jline) : bool := endswith (lower (fst f)) ".jsonl".

(** The number of lines [json.loads] accepts in the [.jsonl] files of a
    directory. *)
Definition jsonl_value_count (dir : listing) : nat :=
  list_sum (map (fun f => if is_jsonl_file f then length (filter is_value (snd f)) else 0) dir).

Definition is_kept (l : jline) : bool :=
  match l with JLBlank | JLMalformed => false | _ => true end.

(** A directory without its non-[.jsonl] entries, blank lines and lines
    [json.loads] rejects. *)
Definition clean_listing (dir : listing) : listing :=
  map (fun f => (fst f, filter is_kept (snd f))) (filter is_jsonl_file dir).

Definition clean_dir (d : option (res listing)) : option (res listing) :=
  option_map (fun ls => let* files := ls in Ok (clean_listing files)) d.

Definition clean_case (c : timeline_case) : timeline_case :=
  mk_timeline_case (clean_dir (evtx_dir c)) (clean_dir (registry_dir c)).

(** Whether an entry's sort key equals [k] (neither is less than the other). *)
Definition same_key (k : datetime) (e : entry) : bool :=
  negb (dt_lt (sort_ts e) k) && negb (dt_lt k (sort_ts e)).

(* ------------------------------------------------------------------ *)
(** ** Views of the store's reply *)

(** The length of the first row of a field of the reply, 0 when it has no
    row. *)
Definition row_len {X : Type} (rows : list (list X)) : nat :=
  match nth_error rows 0 with Some l => length l | None => 0 end.

(** What the builder keeps true of its locals: one metadata dict per
    chunk, chunks stripped and non-empty, metadata of this case, and the
    registry summary holding exactly the registry chunks. *)
Definition corpus_inv (case_id : string) (st : ingest_state) : Prop :=
  length (metadata_list st) = length (text_chunks st) /\
  Forall chunk_ok (text_chunks st) /\
  Forall (meta_ok case_id) (metadata_list st) /\
  reg_summary_f st = registry_summary_of (combine (text_chunks st) (metadata_list st)).

(** An entry whose sort key and timestamp are naive datetimes. *)
Definition entry_naive (e : entry) : Prop :=
  tzinfo (sort_ts e) = None /\
  match e_timestamp e with TKnown dt => tzinfo dt = None | TUnknownTime => True end.

(* ================================================================== *)
(** * Lemmas *)

(** ** Error monad *)

Lemma bind_ok {A B : Type} (m : res A) (k : A -> res B) (b : B) :
  bind m k = Ok b -> exists a, m = Ok a /\ k a = Ok b.
Proof. destruct m as [a|e]; simpl; [eauto | discriminate]. Qed.

Ltac inv_bind :=
  repeat match goal with
  | H : bind _ _ = Ok _ |- _ =>
      let a := fresh "a" in let Ha := fresh "Ha" in
      apply bind_ok in H; destruct H as [a [Ha H]]
  end.

(** An invariant of the accumulator of a [for] loop. *)
Lemma for_each_inv {A S : Type} (P : S -> Prop) (body : S -> A -> res S) :
  (forall st x st', P st -> body st x = Ok st' -> P st') ->
  forall l st st', P st -> for_each l st body = Ok st' -> P st'.
Proof.
  intros Hbody l. induction l as [|x l IH]; simpl; intros st st' Hst Hrun.
  - inversion Hrun; subst; exact Hst.
  - inv_bind. eapply IH; [eapply Hbody; eauto | exact Hrun].
Qed.

(** ** Ids *)

Lemma append_cancel_l (s a b : string) : s ++ a = s ++ b -> a = b.
Proof. induction s as [|c s IH]; simpl; intro H; [exact H | inversion H; auto]. Qed.

Lemma string_of_uint_inj (d1 d2 : Decimal.uint) :
  string_of_uint d1 = string_of_uint d2 -> d1 = d2.
Proof.
  revert d2; induction d1 as [| d1 IH | d1 IH | d1 IH | d1 IH | d1 IH | d1 IH
                              | d1 IH | d1 IH | d1 IH | d1 IH];
  intros [| d2 | d2 | d2 | d2 | d2 | d2 | d2 | d2 | d2 | d2]; simpl; intro H;
  try discriminate; try reflexivity; injection H; intro H'; f_equal; auto.
Qed.

Lemma str_nat_inj : Injective str_nat.
Proof.
  intros m n H. unfold str_nat in H. apply string_of_uint_inj in H.
  rewrite <- (DecimalNat.Unsigned.of_to m), <- (DecimalNat.Unsigned.of_to n), H.
  reflexivity.
Qed.

Lemma embed_ids_NoDup (case_id : string) (n : nat) : NoDup (embed_ids case_id n).
Proof.
  unfold embed_ids. apply Injective_map_NoDup; [| apply seq_NoDup].
  intros i j H. apply str_nat_inj. apply append_cancel_l in H.
  simpl in H. injection H. auto.
Qed.

(** ** The order on naive datetimes *)

Lemma lex_lt_irrefl (a : list Z) : lex_lt a a = false.
Proof.
  induction a as [|x a IH]; simpl; [reflexivity|].
  rewrite Z.ltb_irrefl, Z.eqb_refl, IH. reflexivity.
Qed.

Lemma lex_lt_trans (a b c : list Z) :
  lex_lt a b = true -> lex_lt b c = true -> lex_lt a c = true.
Proof.
  revert b c; induction a as [|x a IH]; intros [|y b] [|z c]; simpl;
    try discriminate; intros H1 H2.
  apply orb_true_iff in H1, H2. apply orb_true_iff.
  destruct H1 as [H1|H1]; destruct H2 as [H2|H2];
    rewrite ?andb_true_iff, ?Z.ltb_lt, ?Z.eqb_eq in *.
  - left; lia.
  - left; lia.
  - left; lia.
  - right; split; [lia | eapply IH; [apply H1 | apply H2]].
Qed.

Lemma lex_lt_asym (a b : list Z) : lex_lt a b = true -> lex_lt b a = false.
Proof.
  intro H. destruct (lex_lt b a) eqn:E; [|reflexivity].
  rewrite <- (lex_lt_irrefl a). symmetry. eapply lex_lt_trans; eauto.
Qed.

Lemma lex_lt_total (a b : list Z) :
  length a = length b -> lex_lt a b = false -> lex_lt b a = false -> a = b.
Proof.
  revert b; induction a as [|x a IH]; intros [|y b]; simpl; try discriminate;
    intros Hlen H1 H2; [reflexivity|].
  apply orb_false_iff in H1, H2. destruct H1 as [H1 H1'], H2 as [H2 H2'].
  rewrite Z.ltb_ge in H1, H2. assert (x = y) by lia. subst y.
  rewrite Z.eqb_refl in H1', H2'. simpl in H1', H2'.
  f_equal. apply IH; auto.
Qed.

(** [a <= b] on the sort keys of two timeline dicts. *)
Definition ts_le (a b : entry) : Prop := dt_lt (sort_ts b) (sort_ts a) = false.

Lemma ts_le_trans : Relations_1.Transitive ts_le.
Proof.
  unfold ts_le, dt_lt. intros a b c Hab Hbc.
  destruct (lex_lt (dt_fields (sort_ts c)) (dt_fields (sort_ts a))) eqn:Eca; [|reflexivity].
  exfalso.
  destruct (lex_lt (dt_fields (sort_ts a)) (dt_fields (sort_ts b))) eqn:Eab.
  - rewrite (lex_lt_trans _ _ _ Eca Eab) in Hbc. discriminate.
  - assert (dt_fields (sort_ts a) = dt_fields (sort_ts b)) as Heq
      by (apply lex_lt_total; auto).
    rewrite Heq in Eca. rewrite Eca in Hbc. discriminate.
Qed.

(** ** The stable insertion sort *)

Lemma insert_by_ts_perm (x : entry) (l : list entry) : Permutation (x :: l) (insert_by_ts x l).
Proof.
  induction l as [|y l IH]; simpl; [reflexivity|].
  destruct (dt_lt (sort_ts x) (sort_ts y)); [reflexivity|].
  rewrite perm_swap. constructor. exact IH.
Qed.

Lemma insert_by_ts_sorted (x : entry) (l : list entry) :
  Sorted ts_le l -> Sorted ts_le (insert_by_ts x l).
Proof.
  induction 1 as [|y l Hl IH Hhd]; simpl.
  - repeat constructor.
  - unfold ts_le in *. destruct (dt_lt (sort_ts x) (sort_ts y)) eqn:Exy.
    + constructor; [constructor; auto|]. constructor.
      unfold ts_le, dt_lt in *. apply lex_lt_asym. exact Exy.
    + constructor; [exact IH|].
      destruct l as [|z l]; simpl.
      * constructor. exact Exy.
      * inversion Hhd; subst.
        destruct (dt_lt (sort_ts x) (sort_ts z)); constructor; assumption.
Qed.

Lemma sort_by_ts_fold (l acc : list entry) :
  Sorted ts_le acc ->
  Permutation (l ++ acc) (fold_left (fun acc x => insert_by_ts x acc) l acc) /\
  Sorted ts_le (fold_left (fun acc x => insert_by_ts x acc) l acc).
Proof.
  revert acc; induction l as [|x l IH]; intros acc Hacc; simpl; [auto|].
  destruct (IH (insert_by_ts x acc)) as [Hp Hs]; [apply insert_by_ts_sorted; exact Hacc|].
  split; [|exact Hs].
  rewrite <- Hp. rewrite <- insert_by_ts_perm. apply Permutation_middle.
Qed.

Lemma sort_by_ts_spec (l : list entry) :
  Permutation l (sort_by_ts l) /\ StronglySorted ts_le (sort_by_ts l).
Proof.
  destruct (sort_by_ts_fold l [] (Sorted_nil _)) as [Hp Hs].
  rewrite app_nil_r in Hp. split; [exact Hp|].
  apply Sorted_StronglySorted; [exact ts_le_trans | exact Hs].
Qed.

(** ** The loaders *)

(** The sentinel [datetime(MAXYEAR, 12, 31)] of unknown-time entries. *)
Definition unknown_sort_ts : datetime := datetime3 MAXYEAR 12 31.

(** The ["sort_ts"] of a dict is its instant, or the sentinel when its
    ["timestamp"] is ["UNKNOWN_TIME"]. *)
Definition entry_wf (e : entry) : Prop :=
  match e_timestamp e with
  | TKnown dt => sort_ts e = dt
  | TUnknownTime => sort_ts e = unknown_sort_ts
  end.

(** An event-log entry: always a known instant. *)
Definition entry_known (e : entry) : Prop := e_timestamp e = TKnown (sort_ts e).

(** An entry built by the registry loader. *)
Definition from_registry (e : entry) : Prop := e_source e = "registry".

Lemma jsonl_loop_inv (P : entry -> Prop) (body : list entry -> jline -> res (list entry)) :
  (forall acc l acc', Forall P acc -> body acc l = Ok acc' -> Forall P acc') ->
  forall files es, jsonl_loop files body = Ok es -> Forall P es.
Proof.
  intros Hbody files es. unfold jsonl_loop.
  apply (for_each_inv (Forall P)); [| constructor].
  intros acc f acc' Hacc Hrun.
  destruct (negb (endswith (lower (fst f)) ".jsonl")).
  - inversion Hrun; subst; exact Hacc.
  - eapply (for_each_inv (Forall P)); [exact Hbody | exact Hacc | exact Hrun].
Qed.

Lemma evtx_line_known (iso : string -> res datetime) (acc : list entry) (l : jline)
    (acc' : list entry) :
  Forall entry_known acc -> evtx_line iso acc l = Ok acc' -> Forall entry_known acc'.
Proof.
  intros Hacc Hrun. destruct l as [| |evt|?]; simpl in Hrun;
    try (inversion Hrun; subst; exact Hacc).
  inv_bind.
  match type of Hrun with
  | context [match ?x with Some _ => _ | None => _ end] => destruct x
  end.
  - inv_bind. inversion Hrun; subst.
    apply Forall_app; split; [exact Hacc|]. repeat constructor.
  - inversion Hrun; subst; exact Hacc.
Qed.

Lemma load_evtx_known (iso : string -> res datetime) (c : timeline_case) (es : list entry) :
  _load_evtx_events iso c = Ok es -> Forall entry_known es.
Proof.
  unfold _load_evtx_events. destruct (evtx_dir c) as [[files|?]|].
  - cbn [bind]. apply jsonl_loop_inv. apply evtx_line_known.
  - intro H; discriminate H.
  - intro H; inversion H; constructor.
Qed.

Lemma registry_line_wf (iso : string -> res datetime) (acc : list entry) (l : jline)
    (acc' : list entry) :
  Forall entry_wf acc -> registry_line iso acc l = Ok acc' -> Forall entry_wf acc'.
Proof.
  intros Hacc Hrun. destruct l as [| |evt|?]; simpl in Hrun;
    try (inversion Hrun; subst; exact Hacc).
  inv_bind.
  match type of Hrun with
  | context [match ?x with Some _ => _ | None => _ end] => destruct x
  end; inversion Hrun; subst;
    (apply Forall_app; split; [exact Hacc|]); repeat constructor.
Qed.

Lemma load_registry_wf (iso : string -> res datetime) (c : timeline_case) (es : list entry) :
  _load_registry_events iso c = Ok es -> Forall entry_wf es.
Proof.
  unfold _load_registry_events. destruct (registry_dir c) as [[files|?]|].
  - cbn [bind]. apply jsonl_loop_inv. apply registry_line_wf.
  - intro H; discriminate H.
  - intro H; inversion H; constructor.
Qed.

Lemma get_obj (kvs : list (string * json)) (k : string) :
  get (JObj kvs) k = Ok (match assoc_lookup k kvs with Some v => v | None => JNull end).
Proof. unfold get, dict_get. destruct (assoc_lookup k kvs); reflexivity. Qed.

Lemma parse_timestamp_ok (iso : string -> res datetime) (t : json) :
  exists o, _parse_timestamp iso t = Ok o.
Proof.
  unfold _parse_timestamp. destruct (negb (truthy t)); [eexists; reflexivity|].
  unfold try_except. destruct (let* dt := fromisoformat_any iso t in _); eexists; reflexivity.
Qed.

Lemma known_wf (e : entry) : entry_known e -> entry_wf e.
Proof. unfold entry_known, entry_wf. intro H. rewrite H. reflexivity. Qed.

Lemma build_timeline_sorted_spec (iso : string -> res datetime) (c : timeline_case)
    (ents : list entry) :
  build_timeline_sorted iso c = Ok ents ->
  exists evtx reg,
    _load_evtx_events iso c = Ok evtx /\ _load_registry_events iso c = Ok reg /\
    ents = sort_by_ts (evtx ++ reg).
Proof.
  unfold build_timeline_sorted. intro H. inv_bind. inversion H; subst. eauto.
Qed.

Lemma build_timeline_sorted_wf (iso : string -> res datetime) (c : timeline_case)
    (ents : list entry) :
  build_timeline_sorted iso c = Ok ents -> Forall entry_wf ents /\ StronglySorted ts_le ents.
Proof.
  intro H. apply build_timeline_sorted_spec in H.
  destruct H as (evtx & reg & He & Hr & ->).
  destruct (sort_by_ts_spec (evtx ++ reg)) as [Hp Hs]. split; [|exact Hs].
  eapply Permutation_Forall; [exact Hp|]. apply Forall_app; split.
  - eapply Forall_impl; [apply known_wf | eapply load_evtx_known; eauto].
  - eapply load_registry_wf; eauto.
Qed.

Lemma registry_line_record (iso : string -> res datetime) (acc : list entry)
    (kvs : list (string * json)) :
  exists e, registry_line iso acc (JLValue (JObj kvs)) = Ok (acc ++ [e])%list /\
    e_source e = "registry" /\
    (e_timestamp e = TUnknownTime <->
     ~ exists s dt, assoc_lookup "last_write" kvs = Some (JStr s) /\
                    _parse_timestamp iso (JStr s) = Ok (Some dt)).
Proof.
  cbn [registry_line]. rewrite !get_obj. cbn [bind]. unfold dict_get.
  destruct (assoc_lookup "value" kvs); cbn [bind];
  destruct (assoc_lookup "last_write" kvs) as [lw|];
  try (destruct lw as [| | |s| |]); cbn [bind];
  try (destruct (parse_timestamp_ok iso (JStr s)) as [[dt|] Hp]; rewrite Hp; cbn [bind]);
  (eexists; split; [reflexivity|]); cbn [e_source e_timestamp]; (split; [reflexivity|]);
  split; intros H; try discriminate H;
  try (intros (s' & dt' & E & _); discriminate E);
  try (intros (s' & dt' & E & Hp'); injection E as <-; congruence).
  all: try (exfalso; apply H; exists s, dt; split; [reflexivity | exact Hp]).
  all: try reflexivity.
Qed.

Lemma registry_line_source (iso : string -> res datetime) (acc : list entry) (l : jline)
    (acc' : list entry) :
  Forall from_registry acc -> registry_line iso acc l = Ok acc' -> Forall from_registry acc'.
Proof.
  intros Hacc Hrun. destruct l as [| |evt|?]; simpl in Hrun;
    try (inversion Hrun; subst; exact Hacc).
  inv_bind.
  match type of Hrun with
  | context [match ?x with Some _ => _ | None => _ end] => destruct x
  end; inversion Hrun; subst;
    (apply Forall_app; split; [exact Hacc|]); repeat constructor.
Qed.

Lemma load_registry_source (iso : string -> res datetime) (c : timeline_case) (es : list entry) :
  _load_registry_events iso c = Ok es -> Forall from_registry es.
Proof.
  unfold _load_registry_events. destruct (registry_dir c) as [[files|?]|].
  - cbn [bind]. apply jsonl_loop_inv. apply registry_line_source.
  - intro H; discriminate H.
  - intro H; inversion H; constructor.
Qed.

Lemma timeline_unknown_from_registry (iso : string -> res datetime) (c : timeline_case)
    (evs : list event) :
  build_timeline iso c = Ok evs ->
  Forall (fun ev => timestamp ev = TUnknownTime -> source ev = "registry") evs.
Proof.
  unfold build_timeline. intros H. inv_bind. inversion H as [Hm]; subst evs; clear H.
  destruct (build_timeline_sorted_spec _ _ _ Ha) as (evtx & reg & He & Hr & ->).
  apply Forall_map. eapply Permutation_Forall; [apply (proj1 (sort_by_ts_spec _))|].
  apply Forall_app; split.
  - eapply Forall_impl; [|exact (load_evtx_known _ _ _ He)].
    intros e Hk Hu. cbn [pop_sort_ts timestamp] in Hu. unfold entry_known in Hk.
    rewrite Hk in Hu. discriminate Hu.
  - eapply Forall_impl; [|exact (load_registry_source _ _ _ Hr)].
    intros e Hs _. exact Hs.
Qed.

(** ** Stability of the sort *)

Lemma dt_fields_length (d : datetime) : length (dt_fields d) = 7.
Proof. reflexivity. Qed.

Lemma same_key_fields (k : datetime) (e : entry) :
  same_key k e = true -> dt_fields (sort_ts e) = dt_fields k.
Proof.
  unfold same_key, dt_lt. intros H. apply andb_true_iff in H as [H1 H2].
  apply negb_true_iff in H1, H2. apply lex_lt_total; auto.
Qed.

Lemma dt_lt_fields_l (a b c : datetime) :
  dt_fields a = dt_fields b -> dt_lt a c = dt_lt b c.
Proof. unfold dt_lt. intros ->. reflexivity. Qed.

Lemma ts_lt_le_trans (x y z : entry) :
  dt_lt (sort_ts x) (sort_ts y) = true -> ts_le y z -> dt_lt (sort_ts x) (sort_ts z) = true.
Proof.
  unfold ts_le, dt_lt. intros Hxy Hyz.
  destruct (lex_lt (dt_fields (sort_ts y)) (dt_fields (sort_ts z))) eqn:Hy.
  - exact (lex_lt_trans _ _ _ Hxy Hy).
  - rewrite <- (lex_lt_total _ _ (eq_trans (dt_fields_length _) (eq_sym (dt_fields_length _)))
                  Hy Hyz).
    exact Hxy.
Qed.

Lemma filter_all_false {A : Type} (f : A -> bool) (l : list A) :
  (forall z, In z l -> f z = false) -> filter f l = [].
Proof.
  induction l as [|a l IH]; intros H; [reflexivity|].
  cbn [filter]. rewrite (H a (or_introl eq_refl)). apply IH. intros z Hz. apply H. right. exact Hz.
Qed.

Lemma insert_by_ts_filter (k : datetime) (x : entry) (acc : list entry) :
  StronglySorted ts_le acc ->
  filter (same_key k) (insert_by_ts x acc) = (filter (same_key k) acc ++ filter (same_key k) [x])%list.
Proof.
  induction 1 as [|y acc Hs IH Hall]; [reflexivity|].
  cbn [insert_by_ts]. destruct (dt_lt (sort_ts x) (sort_ts y)) eqn:Exy.
  - destruct (same_key k x) eqn:Kx.
    + assert (Hnil : filter (same_key k) (y :: acc) = []).
      { apply filter_all_false. intros z Hz.
        assert (Hxz : dt_lt (sort_ts x) (sort_ts z) = true).
        { destruct Hz as [<- | Hz]; [exact Exy|].
          apply (ts_lt_le_trans x y z Exy). rewrite Forall_forall in Hall. auto. }
        destruct (same_key k z) eqn:Kz; [|reflexivity].
        rewrite (dt_lt_fields_l _ _ _ (same_key_fields k x Kx)) in Hxz.
        unfold same_key in Kz. rewrite Hxz in Kz.
        rewrite andb_false_r in Kz. discriminate. }
      transitivity (x :: filter (same_key k) (y :: acc)); [cbn [filter]; rewrite Kx; reflexivity|].
      rewrite Hnil. cbn [filter app]. rewrite Kx. reflexivity.
    + cbn [filter]. rewrite Kx. rewrite app_nil_r. reflexivity.
  - cbn [filter]. rewrite IH. destruct (same_key k y); reflexivity.
Qed.

Lemma sort_fold_filter (k : datetime) (l acc : list entry) :
  Sorted ts_le acc ->
  filter (same_key k) (fold_left (fun acc x => insert_by_ts x acc) l acc) =
  (filter (same_key k) acc ++ filter (same_key k) l)%list.
Proof.
  revert acc; induction l as [|x l IH]; intros acc Hacc; cbn [fold_left].
  - rewrite app_nil_r. reflexivity.
  - rewrite IH by (apply insert_by_ts_sorted; exact Hacc).
    rewrite insert_by_ts_filter by (apply Sorted_StronglySorted; [exact ts_le_trans | exact Hacc]).
    rewrite <- app_assoc, <- filter_app. reflexivity.
Qed.

Lemma sort_by_ts_stable (k : datetime) (l : list entry) :
  filter (same_key k) (sort_by_ts l) = filter (same_key k) l.
Proof. unfold sort_by_ts. rewrite sort_fold_filter by constructor. reflexivity. Qed.

Lemma StronglySorted_app_r {A : Type} (R : A -> A -> Prop) (l1 l2 : list A) :
  StronglySorted R (l1 ++ l2) -> StronglySorted R l2.
Proof.
  induction l1 as [|x l1 IH]; simpl; intro H; [exact H|].
  apply StronglySorted_inv in H. apply IH, H.
Qed.

Lemma replace_tz_none_naive (dt : datetime) : tzinfo dt = None -> replace_tz_none dt = dt.
Proof. destruct dt; simpl; intros ->; reflexivity. Qed.

(* ================================================================== *)
(** * The claims *)

(** ** Timestamp Normalizer *)

(** C9: [_parse_timestamp] is total: for any value (absent, empty,
    malformed, offset-bearing, zone-suffixed, not a string) and for any
    behaviour of [fromisoformat], it returns either no instant ([None]) or
    an offset-free (naive) datetime, never an exception. *)
Theorem parse_timestamp_total (fromisoformat : string -> res datetime) (ts : json) :
  _parse_timestamp fromisoformat ts = Ok None \/
  exists dt, _parse_timestamp fromisoformat ts = Ok (Some dt) /\ tzinfo dt = None.
Proof.
  unfold _parse_timestamp. destruct (truthy ts); simpl; [|auto].
  unfold try_except. destruct (fromisoformat_any fromisoformat ts) as [dt|e]; simpl; [|auto].
  right. destruct (tzinfo dt) eqn:E; eexists; (split; [reflexivity|]); [reflexivity | exact E].
Qed.

(** C10: on a non-empty string, [_parse_timestamp] returns the parsed
    datetime with its offset dropped and its wall-clock fields unchanged
    (no conversion to UTC).  So equal digits at offsets +02:00 and +05:00
    give the same value, the one instant 10:00+00:00 = 12:00+02:00 gives two
    different values, and the timeline orders 12:00+05:00 (07:00 UTC) after
    10:00+00:00 (10:00 UTC). *)
Theorem parse_timestamp_wall_clock :
  (forall (fromisoformat : string -> res datetime) (c : ascii) (s : string),
     _parse_timestamp fromisoformat (JStr (String c s)) =
     match fromisoformat (String c s) with
     | Ok dt => Ok (Some (replace_tz_none dt))
     | Err _ => Ok None
     end) /\
  _parse_timestamp py_fromisoformat (JStr "2024-01-02T10:00:00+02:00") =
    _parse_timestamp py_fromisoformat (JStr "2024-01-02T10:00:00+05:00") /\
  _parse_timestamp py_fromisoformat (JStr "2024-01-02T10:00:00+00:00") <>
    _parse_timestamp py_fromisoformat (JStr "2024-01-02T12:00:00+02:00") /\
  match build_timeline py_fromisoformat
          (evtx_case [evtx_record "2024-01-02T12:00:00+05:00";
                      evtx_record "2024-01-02T10:00:00+00:00"]) with
  | Ok evs => map timestamp evs = [TKnown (naive 2024 1 2 10 0 0); TKnown (naive 2024 1 2 12 0 0)]
  | Err _ => False
  end.
Proof.
  split; [|split; [|split]].
  - intros fromisoformat c s. unfold _parse_timestamp. simpl.
    destruct (fromisoformat (String c s)) as [dt|e]; simpl; [|reflexivity].
    destruct (tzinfo dt) eqn:E; [reflexivity|].
    rewrite (replace_tz_none_naive dt E). reflexivity.
  - vm_compute. reflexivity.
  - vm_compute. discriminate.
  - vm_compute. reflexivity.
Qed.

(** ** Timeline Fuser *)

(** C2 (counterexample): [build_timeline] has no limit.  On a registry
    derivative of 2001 records it returns 2001 events, more than
    [min(max(N,1),2000)] for every [N]. *)
Lemma build_timeline_no_limit_counterexample :
  match build_timeline py_fromisoformat
          (registry_case (repeat (registry_record (JStr "C:\x.exe") None) 2001)) with
  | Ok evs => length evs = 2001 /\ forall N : nat, ~ (length evs <= Nat.min (Nat.max N 1) 2000)
  | Err _ => False
  end.
Proof.
  match goal with |- match ?b with _ => _ end => cut (match b with
    | Ok evs => length evs = 2001 | Err _ => False end);
    [destruct b as [evs|e]; [|contradiction] | vm_compute; reflexivity] end.
  intro H. split; [exact H|]. intro N. rewrite H. lia.
Qed.

(** C2 (amended): [build_timeline] takes no limit and truncates nothing:
    when it succeeds it returns exactly one event per loaded event-log
    and registry entry. *)
Theorem build_timeline_length (iso : string -> res datetime) (c : timeline_case)
    (evtx reg : list entry) (evs : list event)
    (He : _load_evtx_events iso c = Ok evtx)
    (Hr : _load_registry_events iso c = Ok reg)
    (Hb : build_timeline iso c = Ok evs) :
  length evs = length evtx + length reg.
Proof.
  unfold build_timeline in Hb. inv_bind. inversion Hb; subst.
  apply build_timeline_sorted_spec in Ha.
  destruct Ha as (evtx' & reg' & He' & Hr' & ->).
  rewrite He in He'; rewrite Hr in Hr'. injection He' as <-. injection Hr' as <-.
  rewrite length_map, <- (Permutation_length (proj1 (sort_by_ts_spec _))), length_app.
  reflexivity.
Qed.

Lemma build_timeline_length_witness :
  match _load_evtx_events py_fromisoformat mixed_case,
        _load_registry_events py_fromisoformat mixed_case,
        build_timeline py_fromisoformat mixed_case with
  | Ok evtx, Ok reg, Ok evs => length evs = length evtx + length reg /\ length evs = 2
  | _, _, _ => False
  end.
Proof.
  destruct (_load_evtx_events py_fromisoformat mixed_case) as [evtx|] eqn:E1;
    [|vm_compute in E1; discriminate].
  destruct (_load_registry_events py_fromisoformat mixed_case) as [reg|] eqn:E2;
    [|vm_compute in E2; discriminate].
  destruct (build_timeline py_fromisoformat mixed_case) as [evs|] eqn:E3;
    [|vm_compute in E3; discriminate].
  split.
  - exact (build_timeline_length py_fromisoformat mixed_case evtx reg evs E1 E2 E3).
  - vm_compute in E3. injection E3 as <-. reflexivity.
Defined.

(** C3 (counterexample): an event-log record whose timestamp does not
    parse yields no timeline event at all. *)
Lemma evtx_bad_timestamp_counterexample :
  build_timeline py_fromisoformat (evtx_case [evtx_record "not a timestamp"]) = Ok [].
Proof. vm_compute. reflexivity. Qed.

(** C3 (amended): an event-log record whose timestamp fails normalization
    is skipped ([continue]): the loop keeps the events so far and emits
    nothing for it; hence every event-log entry carries a known instant.
    A registry record (an object) always yields one event, whose timestamp
    is ["UNKNOWN_TIME"] exactly when its ["last_write"] is not a string
    that [_parse_timestamp] normalizes; so every ["UNKNOWN_TIME"] event of
    a timeline is a registry event. *)
Theorem evtx_unparseable_timestamp_dropped (iso : string -> res datetime)
    (acc : list entry) (evt t : json)
    (Ht : get evt "timestamp" = Ok t)
    (Hp : _parse_timestamp iso t = Ok None) :
  evtx_line iso acc (JLValue evt) = Ok acc /\
  (forall c es, _load_evtx_events iso c = Ok es -> Forall entry_known es) /\
  (forall racc kvs, exists e,
     registry_line iso racc (JLValue (JObj kvs)) = Ok (racc ++ [e])%list /\
     e_source e = "registry" /\
     (e_timestamp e = TUnknownTime <->
      ~ exists s dt, assoc_lookup "last_write" kvs = Some (JStr s) /\
                     _parse_timestamp iso (JStr s) = Ok (Some dt))) /\
  (forall c evs, build_timeline iso c = Ok evs ->
     Forall (fun ev => timestamp ev = TUnknownTime -> source ev = "registry") evs).
Proof.
  split; [|split; [|split]].
  - simpl. rewrite Ht. simpl. rewrite Hp. reflexivity.
  - apply load_evtx_known.
  - intros racc kvs. apply registry_line_record.
  - intros c evs. apply timeline_unknown_from_registry.
Qed.

Lemma evtx_unparseable_timestamp_dropped_witness :
  get (evtx_record "not a timestamp") "timestamp" = Ok (JStr "not a timestamp") /\
  _parse_timestamp py_fromisoformat (JStr "not a timestamp") = Ok None /\
  evtx_line py_fromisoformat [] (JLValue (evtx_record "not a timestamp")) = Ok [].
Proof.
  assert (Ht : get (evtx_record "not a timestamp") "timestamp" = Ok (JStr "not a timestamp"))
    by reflexivity.
  assert (Hp : _parse_timestamp py_fromisoformat (JStr "not a timestamp") = Ok None)
    by (vm_compute; reflexivity).
  split; [exact Ht | split; [exact Hp|]].
  exact (proj1 (evtx_unparseable_timestamp_dropped py_fromisoformat [] _ _ Ht Hp)).
Defined.

(** C4 (code bug): the comments of [_load_registry_events] ("we push those
    to the end of the timeline") and of [build_timeline] ("registry entries
    with UNKNOWN_TIME go last") say unknown-time events come last, but
    their sort key is the sentinel [datetime(MAXYEAR, 12, 31)], which is
    midnight.  In a timeline an unknown-time event is followed by a
    known-time event only when that event's instant is not before
    9999-12-31T00:00:00, and such events exist: a registry key last written
    at 9999-12-31 12:00 is placed after an unknown-time event. *)
Theorem unknown_tail_sentinel_bug :
  (forall iso c evs pre eu post e dt,
     build_timeline iso c = Ok evs ->
     evs = (pre ++ eu :: post)%list -> timestamp eu = TUnknownTime ->
     In e post -> timestamp e = TKnown dt ->
     dt_lt dt unknown_sort_ts = false) /\
  match build_timeline py_fromisoformat
          (registry_case [registry_record (JStr "a") (Some "9999-12-31T12:00:00");
                          registry_record (JStr "b") None]) with
  | Ok [e1; e2] => timestamp e1 = TUnknownTime /\ timestamp e2 = TKnown (naive 9999 12 31 12 0 0)
  | _ => False
  end.
Proof.
  split; [|vm_compute; split; reflexivity].
  intros iso c evs pre eu post e dt Hb Hevs Hu Hin He.
  unfold build_timeline in Hb. inv_bind. inversion Hb as [Hmap]; clear Hb.
  destruct (build_timeline_sorted_wf _ _ _ Ha) as [Hwf Hsorted].
  rewrite Hevs in Hmap.
  apply map_eq_app in Hmap. destruct Hmap as (l1 & l2 & -> & _ & Hl2).
  apply map_eq_cons in Hl2. destruct Hl2 as (x & l3 & -> & Hx & Hl3).
  subst post. apply in_map_iff in Hin. destruct Hin as (y & <- & Hy).
  apply StronglySorted_app_r, StronglySorted_inv in Hsorted.
  destruct Hsorted as [_ Hall]. rewrite Forall_forall in Hall.
  specialize (Hall y Hy). unfold ts_le in Hall.
  rewrite Forall_forall in Hwf.
  assert (Hwx : entry_wf x) by (apply Hwf, in_or_app; right; left; reflexivity).
  assert (Hwy : entry_wf y) by (apply Hwf, in_or_app; right; right; exact Hy).
  unfold entry_wf in Hwx, Hwy. subst eu. simpl in Hu. rewrite Hu in Hwx.
  simpl in He. rewrite He in Hwy. rewrite Hwx, Hwy in Hall. exact Hall.
Qed.

(** C5 (counterexample): [build_timeline] puts the older of two event-log
    events first; it has no direction flag and no most-recent-first
    default. *)
Lemma timeline_direction_counterexample :
  match build_timeline py_fromisoformat
          (evtx_case [evtx_record "2024-01-02T10:00:00"; evtx_record "2024-01-01T10:00:00"]) with
  | Ok [e1; e2] =>
      timestamp e1 = TKnown (naive 2024 1 1 10 0 0) /\
      timestamp e2 = TKnown (naive 2024 1 2 10 0 0) /\
      dt_lt (naive 2024 1 1 10 0 0) (naive 2024 1 2 10 0 0) = true
  | _ => False
  end.
Proof. vm_compute. repeat split. Qed.

(** C5 (amended): [build_timeline] takes no direction flag; it returns the
    loaded event-log and registry entries, reordered (a permutation) into
    ascending order of their sort key, i.e. oldest first, and stably: the
    entries sharing a sort key keep their loading order. *)
Theorem build_timeline_ascending (iso : string -> res datetime) (c : timeline_case)
    (evtx reg : list entry)
    (He : _load_evtx_events iso c = Ok evtx)
    (Hr : _load_registry_events iso c = Ok reg) :
  exists ents,
    Permutation (evtx ++ reg) ents /\ StronglySorted ts_le ents /\
    (forall k, filter (same_key k) ents = filter (same_key k) (evtx ++ reg)%list) /\
    build_timeline iso c = Ok (map pop_sort_ts ents).
Proof.
  exists (sort_by_ts (evtx ++ reg)).
  destruct (sort_by_ts_spec (evtx ++ reg)) as [Hp Hs].
  split; [exact Hp | split; [exact Hs|]].
  split; [intros k; apply sort_by_ts_stable|].
  unfold build_timeline, build_timeline_sorted. rewrite He, Hr. reflexivity.
Qed.

Lemma build_timeline_ascending_witness :
  match _load_evtx_events py_fromisoformat mixed_case,
        _load_registry_events py_fromisoformat mixed_case with
  | Ok evtx, Ok reg =>
      exists ents, Permutation (evtx ++ reg) ents /\ StronglySorted ts_le ents /\
        (forall k, filter (same_key k) ents = filter (same_key k) (evtx ++ reg)%list) /\
        build_timeline py_fromisoformat mixed_case = Ok (map pop_sort_ts ents)
  | _, _ => False
  end.
Proof.
  destruct (_load_evtx_events py_fromisoformat mixed_case) as [evtx|] eqn:E1;
    [|vm_compute in E1; discriminate].
  destruct (_load_registry_events py_fromisoformat mixed_case) as [reg|] eqn:E2;
    [|vm_compute in E2; discriminate].
  exact (build_timeline_ascending py_fromisoformat mixed_case evtx reg E1 E2).
Defined.

(** ** Event Describer *)

Lemma string_length_append (a b : string) :
  String.length (a ++ b) = String.length a + String.length b.
Proof. induction a as [|c a IH]; simpl; [reflexivity | rewrite IH; reflexivity]. Qed.

Lemma join_cons_cons (sep p q : string) (ps : list string) :
  join sep (p :: q :: ps) = p ++ sep ++ join sep (q :: ps).
Proof. reflexivity. Qed.

(** C6 (counterexample): a registry record whose ["value"] is 400
    characters long gets a description longer than 400 characters. *)
Lemma description_length_counterexample :
  match build_timeline py_fromisoformat
          (registry_case [registry_record (JStr (repeat_string 400 "a")) None]) with
  | Ok [e] => String.length (description e) = 491
  | _ => False
  end.
Proof. vm_compute. reflexivity. Qed.

(** C6 (amended): no description is truncated.  The registry description
    is 33 characters plus the five formatted fields; the event-log
    description is the single-space join of its pieces, as long as the
    pieces plus one separator between each two. *)
Theorem description_untruncated :
  (forall category hive key_path value_name value,
     String.length (registry_description category hive key_path value_name value) =
     33 + String.length (py_str category) + String.length (py_str hive) +
     String.length (py_str key_path) + String.length (py_str value_name) +
     String.length (py_str value)) /\
  (forall data,
     evtx_description data = let* pieces := evtx_pieces data in Ok (join " " pieces)) /\
  (forall p ps,
     String.length (join " " (p :: ps)) =
     String.length p + list_sum (map (fun s => S (String.length s)) ps)).
Proof.
  split; [|split].
  - intros. unfold registry_description. rewrite !string_length_append. simpl. lia.
  - reflexivity.
  - intros p ps. revert p. induction ps as [|q ps IH]; intro p; [simpl; lia|].
    rewrite join_cons_cons, !string_length_append, IH. simpl. lia.
Qed.

(** ** Embedding Index Adapter *)

(** C1 (counterexample): ingesting the same case twice submits the id
    ["c_0"] in both runs, so the two id sets are not disjoint. *)
Lemma ingest_ids_collide_counterexample :
  ingested_ids no_registry notes_case "c" = ["c_0"] /\
  In "c_0" (ingested_ids no_registry notes_case "c") /\
  In "c_0" (ingested_ids no_registry notes_case "c").
Proof. vm_compute. split; [reflexivity | split; left; reflexivity]. Qed.

(** C1 (amended): [embed_texts] makes no store call for an empty batch; for
    a non-empty one it assigns the positional ids [f"{case_id}_{i}"], which
    are pairwise distinct within that call and depend only on the case id
    and the batch length (so a repeated ingestion reuses them). *)
Theorem embed_texts_ids (case_id : string) (texts : list string) (metadata_list : list meta) :
  match embed_texts case_id texts metadata_list with
  | None => texts = []
  | Some c =>
      a_ids c = map (fun i => case_id ++ "_" ++ str_nat i) (seq 0 (length texts)) /\
      NoDup (a_ids c)
  end.
Proof.
  destruct texts as [|t texts]; simpl; [reflexivity|].
  split; [reflexivity|]. apply (embed_ids_NoDup case_id (S (length texts))).
Qed.

(** The hits accumulated by [semantic_search]'s loop satisfy any property
    that each appended hit satisfies at its index. *)
Lemma for_each_seq_nth {A : Type} (P : nat -> A -> Prop)
    (body : list A -> nat -> res (list A)) :
  (forall acc i acc', length acc = i -> body acc i = Ok acc' ->
     exists h, acc' = (acc ++ [h])%list /\ P i h) ->
  forall n k acc out,
    length acc = k -> (forall i h, nth_error acc i = Some h -> P i h) ->
    for_each (seq k n) acc body = Ok out ->
    forall i h, nth_error out i = Some h -> P i h.
Proof.
  intros Hbody n. induction n as [|n IH]; intros k acc out Hlen Hacc Hrun; simpl in Hrun.
  - inversion Hrun; subst; exact Hacc.
  - inv_bind. destruct (Hbody acc k a Hlen Ha) as (h & -> & Hh).
    apply (IH (S k) (acc ++ [h])%list out); [| | exact Hrun].
    + rewrite length_app, Hlen. simpl. lia.
    + intros i h' Hi. destruct (Nat.lt_ge_cases i (length acc)) as [Hlt|Hge].
      * rewrite nth_error_app1 in Hi by exact Hlt. apply Hacc, Hi.
      * rewrite nth_error_app2 in Hi by exact Hge.
        destruct (i - length acc) eqn:E; simpl in Hi; [|destruct n0; discriminate].
        injection Hi as <-. replace i with k by lia. exact Hh.
Qed.

(** C7 (counterexample): a hit carries the distance under the key
    ["score"]; it has no ["distance"] key. *)
Lemma search_score_label_counterexample :
  match semantic_search (mk_query_result [["c_0"]] [[3%Z]] [["4624 logon alice"]] [[tt]]) with
  | Ok [(_, [h])] => assoc_lookup "distance" h = None /\ assoc_lookup "score" h = Some (HDist 3%Z)
  | _ => False
  end.
Proof. vm_compute. split; reflexivity. Qed.

(** C7 (amended): hit [i] of the result is the dict with the [i]-th id,
    the [i]-th distance of the store unchanged (neither inverted nor
    rescaled) under the key ["score"], the [i]-th document and the [i]-th
    metadata of the store's first row. *)
Theorem semantic_search_hits {D M : Type} (r : @query_result D M) (hits : list hit)
    (Hs : semantic_search r = Ok [("results", hits)]) :
  forall i h, nth_error hits i = Some h ->
  exists id d doc m,
    h = [("id", HStr id); ("score", HDist d); ("text", HStr doc); ("metadata", HMeta m)] /\
    (exists row, nth_error (q_ids r) 0 = Some row /\ nth_error row i = Some id) /\
    (exists row, nth_error (q_distances r) 0 = Some row /\ nth_error row i = Some d) /\
    (exists row, nth_error (q_documents r) 0 = Some row /\ nth_error row i = Some doc) /\
    (exists row, nth_error (q_metadatas r) 0 = Some row /\ nth_error row i = Some m).
Proof.
  unfold semantic_search in Hs. inv_bind. inversion Hs; subst.
  intros i h Hi. pattern i, h.
  refine (for_each_seq_nth _ _ _ (length a) 0 [] hits eq_refl _ Ha0 i h Hi).
  - intros acc j acc' _ Hbody. unfold index in Hbody.
    repeat match type of Hbody with
    | context [match nth_error ?l ?n with Some _ => _ | None => _ end] =>
        let E := fresh "E" in destruct (nth_error l n) eqn:E;
        cbv beta iota delta [bind] in Hbody;
        [|discriminate]
    end.
    injection Hbody as <-. eexists; split; [reflexivity|].
    do 4 eexists; split; [reflexivity|].
    repeat match goal with
    | |- _ /\ _ => split
    | |- exists _, _ => eexists
    | |- _ = _ => first [eassumption | reflexivity]
    end.
  - intros j h' Hj. destruct j; discriminate.
Qed.

Lemma semantic_search_hits_witness :
  exists id d doc m,
    [("id", HStr id); ("score", HDist d); ("text", HStr doc); ("metadata", HMeta m)] =
      [("id", HStr "c_1"); ("score", HDist 7%Z); ("text", HStr "b"); ("metadata", HMeta tt)]
    /\ (exists row, nth_error (q_ids (mk_query_result [["c_0"; "c_1"]] [[3%Z; 7%Z]]
                                           [["a"; "b"]] [[tt; tt]])) 0 = Some row /\
                    nth_error row 1 = Some id).
Proof.
  assert (Hs : semantic_search (mk_query_result [["c_0"; "c_1"]] [[3%Z; 7%Z]] [["a"; "b"]]
                                                [[tt; tt]]) =
               Ok [("results",
                    [[("id", HStr "c_0"); ("score", HDist 3%Z); ("text", HStr "a");
                      ("metadata", HMeta tt)];
                     [("id", HStr "c_1"); ("score", HDist 7%Z); ("text", HStr "b");
                      ("metadata", HMeta tt)]])]) by reflexivity.
  destruct (semantic_search_hits _ _ Hs 1 _ eq_refl) as (id & d & doc & m & Hh & Hid & _).
  exists id, d, doc, m. split; [symmetry; exact Hh | exact Hid].
Defined.

(** ** Corpus Builder *)

Lemma fold_left_inv {A S : Type} (P : S -> Prop) (f : S -> A -> S) :
  (forall st x, P st -> P (f st x)) -> forall l st, P st -> P (fold_left f l st).
Proof. intros Hf l. induction l as [|x l IH]; simpl; auto. Qed.

Definition evtx_summary_empty (st : ingest_state) : Prop := evtx_summary_f st = "".

Lemma index_evtx_txt_summary (case_id : string) (case_dir : case_files) (st : ingest_state) :
  evtx_summary_empty st -> evtx_summary_empty (index_evtx_txt case_id case_dir st).
Proof.
  unfold index_evtx_txt. apply fold_left_inv. intros st' f Hst.
  destruct (negb (endswith (fst f) ".txt")); [exact Hst|].
  apply fold_left_inv; [|exact Hst]. intros st'' raw H.
  destruct (String.eqb (strip raw) ""); [exact H | exact H].
Qed.

Lemma walk_file_summary (gen : list string -> Z * string) (case_id : string)
    (st : ingest_state) (f : list string * string) :
  evtx_summary_empty st -> evtx_summary_empty (walk_file gen case_id st f).
Proof.
  intro Hst. destruct f as [p contents]. unfold walk_file.
  destruct (mem_str (last p "") _); [exact Hst|].
  destruct (mem_str (lower (splitext_ext (last p ""))) REGISTRY_EXTENSIONS).
  - destruct (gen p) as [n txt]. destruct (0 <? n)%Z; [|exact Hst].
    apply fold_left_inv; [|exact Hst]. intros st' raw H.
    destruct (String.eqb (strip raw) ""); [exact H | exact H].
  - destruct (mem_str _ TEXT_EXTENSIONS); [|exact Hst].
    destruct (String.eqb (strip (read_text contents)) ""); [exact Hst | exact Hst].
Qed.

(** C8 (code bug): [build_and_index_case_corpus] opens
    [evtx_summaries.jsonl] with mode ["w"] and never writes to it: after
    every run it is empty, even when event-log lines were indexed, while
    the registry lines of the same run are written to
    [registry_summaries.jsonl]. *)
Theorem evtx_summary_never_written :
  (forall gen case_dir case_id,
     evtx_summaries_jsonl (build_and_index_case_corpus gen case_dir case_id) = "") /\
  r_text_chunks (build_and_index_case_corpus one_registry_line evtx_and_registry_case "c") =
    ["4624 logon alice"; "4624 logon alice"; "HKLM Run Updater"] /\
  evtx_summaries_jsonl (build_and_index_case_corpus one_registry_line evtx_and_registry_case "c")
    = "" /\
  registry_summaries_jsonl
    (build_and_index_case_corpus one_registry_line evtx_and_registry_case "c") =
    "HKLM Run Updater" ++ NEWLINE.
Proof.
  split; [|vm_compute; repeat split].
  intros gen case_dir case_id.
  assert (H : evtx_summary_empty
                (fold_left (walk_file gen case_id) case_dir
                   (index_evtx_txt case_id case_dir (mk_ingest_state [] [] "" "")))).
  { apply fold_left_inv; [apply walk_file_summary|].
    apply index_evtx_txt_summary. reflexivity. }
  unfold build_and_index_case_corpus.
  destruct (text_chunks _); exact H.
Qed.

(* ================================================================== *)
(** * Further properties of the code *)

(** ** Strings *)

Lemma lstrip_l_head (l : list ascii) :
  match lstrip_l l with [] => True | c :: _ => is_space c = false end.
Proof.
  induction l as [|c l IH]; simpl; [exact I|].
  destruct (is_space c) eqn:E; [exact IH | exact E].
Qed.

Lemma lstrip_l_noop (l : list ascii) :
  match l with [] => True | c :: _ => is_space c = false end -> lstrip_l l = l.
Proof. destruct l as [|c l]; simpl; [reflexivity|]. intros ->. reflexivity. Qed.

Lemma lstrip_l_suffix (l : list ascii) : exists p, l = (p ++ lstrip_l l)%list.
Proof.
  induction l as [|c l IH]; simpl; [exists []; reflexivity|].
  destruct (is_space c).
  - destruct IH as [p Hp]. exists (c :: p). simpl. f_equal. exact Hp.
  - exists []. reflexivity.
Qed.

(** [s.strip().strip() == s.strip()] *)
Lemma strip_idem (s : string) : strip (strip s) = strip s.
Proof.
  unfold strip. rewrite list_ascii_of_string_of_list_ascii. f_equal.
  set (y := lstrip_l (list_ascii_of_string s)).
  set (z := lstrip_l (rev y)).
  assert (Hw : lstrip_l (rev z) = rev z).
  { destruct (lstrip_l_suffix (rev y)) as [p Hp]. fold z in Hp.
    apply lstrip_l_noop.
    assert (Hy : y = (rev z ++ rev p)%list)
      by (rewrite <- rev_app_distr, <- Hp, rev_involutive; reflexivity).
    pose proof (lstrip_l_head (list_ascii_of_string s)) as Hh. fold y in Hh.
    destruct (rev z) as [|c w]; [exact I|]. rewrite Hy in Hh. exact Hh. }
  rewrite Hw, rev_involutive. f_equal. apply lstrip_l_noop.
  apply (lstrip_l_head (rev y)).
Qed.

Lemma string_append_assoc (a b c : string) : (a ++ b) ++ c = a ++ (b ++ c).
Proof. induction a as [|x a IH]; simpl; [reflexivity | rewrite IH; reflexivity]. Qed.

Lemma string_append_nil_r (a : string) : a ++ "" = a.
Proof. induction a as [|x a IH]; simpl; [reflexivity | rewrite IH; reflexivity]. Qed.

Lemma concat_str_snoc (xs : list string) (x : string) :
  concat_str (xs ++ [x])%list = concat_str xs ++ x.
Proof.
  induction xs as [|y xs IH]; simpl.
  - rewrite string_append_nil_r. reflexivity.
  - unfold concat_str in *. rewrite IH, string_append_assoc. reflexivity.
Qed.

Lemma combine_snoc {A B : Type} (l1 : list A) (l2 : list B) (a : A) (b : B) :
  length l1 = length l2 -> combine (l1 ++ [a]) (l2 ++ [b]) = (combine l1 l2 ++ [(a, b)])%list.
Proof.
  revert l2; induction l1 as [|x l1 IH]; intros [|y l2] H; simpl in *;
    try discriminate; [reflexivity|].
  rewrite IH by lia. reflexivity.
Qed.

(** ** The corpus builder's state *)

Lemma add_chunk_inv (case_id : string) (st : ingest_state) (raw src file : string) :
  corpus_inv case_id st -> strip raw <> "" -> In src ["evtx"; "file"] ->
  corpus_inv case_id (add_chunk st (strip raw) (mk_meta src case_id file)).
Proof.
  intros (Hlen & Hc & Hm & Hs) Hne Hsrc. unfold add_chunk, corpus_inv; simpl.
  split; [rewrite !length_app, Hlen; reflexivity|].
  split; [apply Forall_app; split; [exact Hc | constructor; [split; [exact Hne | apply strip_idem] | constructor]]|].
  split; [apply Forall_app; split; [exact Hm | constructor; [split; [reflexivity | simpl in *; tauto] | constructor]]|].
  rewrite combine_snoc by (symmetry; exact Hlen). unfold registry_summary_of.
  rewrite filter_app. simpl.
  destruct Hsrc as [<- | [<- | []]]; simpl; rewrite app_nil_r; exact Hs.
Qed.

Lemma add_registry_chunk_inv (case_id : string) (st : ingest_state) (raw file : string) :
  corpus_inv case_id st -> strip raw <> "" ->
  corpus_inv case_id (write_reg_summary (add_chunk st (strip raw) (mk_meta "registry" case_id file))
                        (strip raw ++ NEWLINE)).
Proof.
  intros (Hlen & Hc & Hm & Hs) Hne. unfold write_reg_summary, add_chunk, corpus_inv; simpl.
  split; [rewrite !length_app, Hlen; reflexivity|].
  split; [apply Forall_app; split; [exact Hc | constructor; [split; [exact Hne | apply strip_idem] | constructor]]|].
  split; [apply Forall_app; split; [exact Hm | constructor; [split; [reflexivity | simpl; tauto] | constructor]]|].
  rewrite combine_snoc by (symmetry; exact Hlen). unfold registry_summary_of in *.
  rewrite filter_app. simpl. rewrite map_app. simpl. rewrite concat_str_snoc, Hs. reflexivity.
Qed.

Lemma strip_ne (raw : string) : String.eqb (strip raw) "" = false -> strip raw <> "".
Proof. intros H. apply String.eqb_neq, H. Qed.

Lemma corpus_state_inv (gen : list string -> Z * string) (case_dir : case_files)
    (case_id : string) :
  corpus_inv case_id (corpus_state gen case_dir case_id).
Proof.
  unfold corpus_state. apply fold_left_inv.
  - intros st [p contents] Hst. unfold walk_file.
    destruct (mem_str (last p "") _); [exact Hst|].
    destruct (mem_str (lower (splitext_ext (last p ""))) REGISTRY_EXTENSIONS).
    + destruct (gen p) as [n txt]. destruct (0 <? n)%Z; [|exact Hst].
      apply fold_left_inv; [|exact Hst]. intros st' raw H.
      destruct (String.eqb (strip raw) "") eqn:E; [exact H|].
      apply add_registry_chunk_inv; [exact H | apply strip_ne, E].
    + destruct (mem_str _ TEXT_EXTENSIONS); [|exact Hst].
      destruct (String.eqb (strip (read_text contents)) "") eqn:E; [exact Hst|].
      apply add_chunk_inv; [exact Hst | apply strip_ne, E | simpl; tauto].
  - unfold index_evtx_txt. apply fold_left_inv.
    + intros st f Hst. destruct (negb (endswith (fst f) ".txt")); [exact Hst|].
      apply fold_left_inv; [|exact Hst]. intros st' raw H.
      destruct (String.eqb (strip raw) "") eqn:E; [exact H|].
      apply add_chunk_inv; [exact H | apply strip_ne, E | simpl; tauto].
    + repeat split; constructor.
Qed.

(** ** Batching *)

Lemma firstn_add_split {A : Type} (a b : nat) (l : list A) :
  firstn (a + b) l = (firstn a l ++ firstn b (skipn a l))%list.
Proof.
  revert l; induction a as [|a IH]; intros [|x l]; simpl;
    try reflexivity; [rewrite firstn_nil; reflexivity | f_equal; apply IH].
Qed.

Lemma slice_batch {A : Type} (l : list A) (s B : nat) :
  slice l s (s + B) = firstn B (skipn s l).
Proof. unfold slice. f_equal. lia. Qed.

Lemma batches_concat {A : Type} (B : nat) (l : list A) (n k : nat) :
  concat (map (fun j => firstn B (skipn (j * B) l)) (seq k n)) = firstn (n * B) (skipn (k * B) l).
Proof.
  revert k; induction n as [|n IH]; intros k; simpl; [reflexivity|].
  rewrite IH, firstn_add_split, skipn_skipn. do 3 f_equal.
Qed.

Lemma py_range_step_in (L B s : nat) :
  0 < B -> In s (py_range_step 0 L B) -> s < L.
Proof.
  intros HB. unfold py_range_step. rewrite in_map_iff.
  intros (k & <- & Hk). apply in_seq in Hk.
  pose proof (Nat.Div0.mul_div_le (L - 0 + B - 1) B) as Hd.
  set (q := (L - 0 + B - 1) / B) in *. nia.
Qed.

Lemma py_range_step_cover (L B : nat) :
  0 < B -> L <= (L + B - 1) / B * B.
Proof.
  intros HB. pose proof (Nat.div_mod (L + B - 1) B ltac:(lia)) as Hd.
  pose proof (Nat.mod_upper_bound (L + B - 1) B ltac:(lia)). nia.
Qed.

Lemma embed_batches_map (case_id : string) (chunks : list string) (metas : list meta) :
  embed_batches case_id chunks metas =
  map (fun s => mk_add_call (collection_name case_id)
                  (embed_ids case_id (length (firstn max_batch (skipn s chunks))))
                  (firstn max_batch (skipn s chunks)) (firstn max_batch (skipn s metas)))
      (py_range_step 0 (length chunks) max_batch).
Proof.
  unfold embed_batches.
  assert (Hin : forall s, In s (py_range_step 0 (length chunks) max_batch) -> s < length chunks)
    by (intros s; apply py_range_step_in; unfold max_batch; lia).
  induction (py_range_step 0 (length chunks) max_batch) as [|s ss IH]; cbn [flat_map map]; [reflexivity|].
  rewrite !slice_batch. specialize (Hin s (or_introl eq_refl)) as Hs.
  unfold embed_texts.
  destruct (firstn max_batch (skipn s chunks)) eqn:E.
  - exfalso. apply (f_equal (@length string)) in E. rewrite length_firstn, length_skipn in E.
    cbn [length] in E. unfold max_batch in E. lia.
  - cbn [app]. f_equal. apply IH. intros t Ht. apply Hin. right. exact Ht.
Qed.

Lemma build_and_index_unfold (gen : list string -> Z * string) (case_dir : case_files)
    (case_id : string) :
  build_and_index_case_corpus gen case_dir case_id =
  let st := corpus_state gen case_dir case_id in
  match text_chunks st with
  | [] => mk_ingest_result (evtx_summary_f st) (reg_summary_f st) [] [] 0
  | chunks =>
      mk_ingest_result (evtx_summary_f st) (reg_summary_f st) chunks
        (embed_batches case_id chunks (metadata_list st)) (length chunks)
  end.
Proof. reflexivity. Qed.

Lemma max_batch_pos : 0 < max_batch.
Proof. unfold max_batch. lia. Qed.

Lemma batches_cover {A : Type} (l : list A) (L : nat) :
  length l <= L ->
  concat (map (fun s => firstn max_batch (skipn s l)) (py_range_step 0 L max_batch)) = l.
Proof.
  intros Hl. unfold py_range_step. rewrite map_map.
  rewrite (batches_concat max_batch l _ 0). cbn [skipn Nat.mul].
  apply firstn_all2. pose proof (py_range_step_cover L max_batch max_batch_pos).
  rewrite Nat.sub_0_r. lia.
Qed.

(** The ids [embed_texts] gives a call of [n] texts, [case_id_0] first. *)
Lemma embed_ids_head (case_id : string) (n : nat) :
  0 < n -> exists rest, embed_ids case_id n = (case_id ++ "_0") :: rest.
Proof.
  intros Hn. destruct n as [|n]; [lia|]. eexists. reflexivity.
Qed.

(** ** [build_and_index_case_corpus] *)

(** The builder's result in terms of its state after the walk. *)
Lemma corpus_batches_partition_aux (gen : list string -> Z * string) (case_dir : case_files)
    (case_id : string) :
  let r := build_and_index_case_corpus gen case_dir case_id in
  let st := corpus_state gen case_dir case_id in
  r_text_chunks r = text_chunks st /\
  r_total r = length (text_chunks st) /\
  concat (map a_documents (r_add_calls r)) = text_chunks st /\
  concat (map a_metadatas (r_add_calls r)) = metadata_list st /\
  length (r_add_calls r) = (length (text_chunks st) + max_batch - 1) / max_batch.
Proof.
  cbv zeta. rewrite build_and_index_unfold. cbv zeta.
  destruct (corpus_state_inv gen case_dir case_id) as (Hlen & _ & _ & _).
  destruct (text_chunks (corpus_state gen case_dir case_id)) as [|c cs] eqn:Ec.
  - destruct (metadata_list (corpus_state gen case_dir case_id)); [|discriminate].
    cbn [r_text_chunks r_total r_add_calls map concat length].
    repeat split; try (unfold max_batch; reflexivity).
  - cbn [r_text_chunks r_total r_add_calls]. rewrite embed_batches_map, !map_map.
    cbn [a_documents a_metadatas]. rewrite <- Ec in *.
    split; [reflexivity|]. split; [reflexivity|].
    split; [apply batches_cover; lia|]. split; [apply batches_cover; lia|].
    rewrite length_map. unfold py_range_step. rewrite length_map, length_seq, Nat.sub_0_r.
    reflexivity.
Qed.


Lemma corpus_batch_shape_aux (gen : list string -> Z * string) (case_dir : case_files)
    (case_id : string) :
  Forall (fun c => a_collection c = collection_name case_id /\
                   0 < length (a_documents c) <= max_batch /\
                   length (a_metadatas c) = length (a_documents c) /\
                   a_ids c = embed_ids case_id (length (a_documents c)))
         (r_add_calls (build_and_index_case_corpus gen case_dir case_id)).
Proof.
  rewrite build_and_index_unfold. cbv zeta.
  destruct (corpus_state_inv gen case_dir case_id) as (Hlen & _ & _ & _).
  destruct (text_chunks (corpus_state gen case_dir case_id)) as [|c cs] eqn:Ec;
    [constructor|].
  cbn [r_add_calls]. rewrite embed_batches_map, <- Ec in *.
  apply Forall_map, Forall_forall. intros s Hs.
  apply py_range_step_in in Hs; [|exact max_batch_pos].
  cbn [a_collection a_documents a_metadatas a_ids].
  rewrite !length_firstn, !length_skipn, Hlen.
  pose proof max_batch_pos. repeat split; lia.
Qed.



Lemma corpus_first_batch_full (gen : list string -> Z * string) (case_dir : case_files)
    (case_id : string) :
  max_batch < length (text_chunks (corpus_state gen case_dir case_id)) ->
  exists c1 cs, r_add_calls (build_and_index_case_corpus gen case_dir case_id) = c1 :: cs /\
    length (a_documents c1) = max_batch.
Proof.
  intros Hbig. rewrite build_and_index_unfold. cbv zeta.
  destruct (text_chunks (corpus_state gen case_dir case_id)) as [|x xs] eqn:Ec;
    [cbn [length] in Hbig; unfold max_batch in Hbig; lia|].
  cbn [r_add_calls]. rewrite embed_batches_map, <- Ec in *.
  unfold py_range_step.
  assert (Hn : 1 <= (length (text_chunks (corpus_state gen case_dir case_id)) - 0 + max_batch - 1)
                    / max_batch)
    by (apply Nat.div_le_lower_bound; pose proof max_batch_pos; lia).
  destruct ((length (text_chunks (corpus_state gen case_dir case_id)) - 0 + max_batch - 1)
            / max_batch) as [|n]; [lia|].
  cbn [seq map]. eexists _, _. split; [reflexivity|].
  cbn [a_documents Nat.mul Nat.add]. rewrite length_firstn, length_skipn. lia.
Qed.

Lemma embed_ids_incl (case_id id : string) (k n : nat) :
  k <= n -> In id (embed_ids case_id k) -> In id (embed_ids case_id n).
Proof.
  intros Hk. unfold embed_ids. rewrite !in_map_iff. intros (i & <- & Hi).
  exists i. split; [reflexivity|]. apply in_seq in Hi. apply in_seq. lia.
Qed.

(** X3: A corpus of more than 5000 chunks is submitted under duplicate ids:
    the first [coll.add] call carries the ids [case_id_0], ...,
    [case_id_4999], at least one call follows it, and every id of every
    later call is an id of the first call, since each batch numbers its ids
    from [case_id_0] again; so the ids submitted in the run are not
    distinct. *)
Theorem corpus_batches_ids_collide (gen : list string -> Z * string) (case_dir : case_files)
    (case_id : string) :
  max_batch < length (text_chunks (corpus_state gen case_dir case_id)) ->
  exists c1 cs,
    r_add_calls (build_and_index_case_corpus gen case_dir case_id) = c1 :: cs /\
    cs <> [] /\
    a_ids c1 = embed_ids case_id max_batch /\
    (forall c id, In c cs -> In id (a_ids c) -> In id (a_ids c1)) /\
    ~ NoDup (ingested_ids gen case_dir case_id).
Proof.
  intros Hbig.
  destruct (corpus_first_batch_full gen case_dir case_id Hbig) as (c1 & cs & Hcalls & Hlen1).
  pose proof (corpus_batches_partition_aux gen case_dir case_id) as (_ & _ & _ & _ & Hn).
  pose proof (corpus_batch_shape_aux gen case_dir case_id) as Hs.
  assert (Hcount : 2 <= (length (text_chunks (corpus_state gen case_dir case_id)) + max_batch - 1)
                        / max_batch).
  { apply Nat.div_le_lower_bound; pose proof max_batch_pos; lia. }
  rewrite <- Hn, Hcalls in Hcount. rewrite Hcalls in Hs.
  apply Forall_cons_iff in Hs as [(_ & H1 & _ & I1) Hs].
  assert (Hids1 : a_ids c1 = embed_ids case_id max_batch) by (rewrite I1, Hlen1; reflexivity).
  exists c1, cs. split; [exact Hcalls|].
  destruct cs as [|c2 cs]; [cbn [length] in Hcount; lia|].
  split; [discriminate|]. split; [exact Hids1|]. split.
  - intros c id Hc Hid. rewrite Forall_forall in Hs.
    destruct (Hs c Hc) as (_ & Hc2 & _ & Ic). rewrite Ic in Hid. rewrite Hids1.
    apply (embed_ids_incl case_id id (length (a_documents c))); [lia | exact Hid].
  - apply Forall_cons_iff in Hs as [(_ & H2 & _ & I2) _].
    unfold ingested_ids. rewrite Hcalls.
    destruct (embed_ids_head case_id _ (proj1 H1)) as [r1 E1].
    destruct (embed_ids_head case_id _ (proj1 H2)) as [r2 E2].
    cbn [flat_map]. rewrite I1, I2, E1, E2. intros Hnd.
    apply (NoDup_remove_2 ((case_id ++ "_0") :: r1) (r2 ++ flat_map a_ids cs)) in Hnd.
    apply Hnd. left. reflexivity.
Qed.

(** X1: The chunks of a corpus are sent to the store in full, in order, and
    once each: the documents (and the metadata dicts) of the successive
    [coll.add] calls concatenate to the whole chunk list (metadata list),
    there are ceil(N / 5000) calls for N chunks, and the returned count is N. *)
Theorem corpus_batches_partition (gen : list string -> Z * string) (case_dir : case_files)
    (case_id : string) :
  let r := build_and_index_case_corpus gen case_dir case_id in
  let st := corpus_state gen case_dir case_id in
  r_text_chunks r = text_chunks st /\
  r_total r = length (text_chunks st) /\
  concat (map a_documents (r_add_calls r)) = text_chunks st /\
  concat (map a_metadatas (r_add_calls r)) = metadata_list st /\
  length (r_add_calls r) = (length (text_chunks st) + max_batch - 1) / max_batch.
Proof. exact (corpus_batches_partition_aux gen case_dir case_id). Qed.

(** X2: Each [coll.add] call of a run goes to the collection [case_<case_id>]
    with between 1 and 5000 documents, one metadata dict per document, and
    the ids [case_id_0], ..., [case_id_(k-1)] for its k documents. *)
Theorem corpus_batch_shape (gen : list string -> Z * string) (case_dir : case_files)
    (case_id : string) :
  Forall (fun c => a_collection c = collection_name case_id /\
                   0 < length (a_documents c) <= max_batch /\
                   length (a_metadatas c) = length (a_documents c) /\
                   a_ids c = embed_ids case_id (length (a_documents c)))
         (r_add_calls (build_and_index_case_corpus gen case_dir case_id)).
Proof. exact (corpus_batch_shape_aux gen case_dir case_id). Qed.






Lemma corpus_batches_ids_collide_witness :
  max_batch < length (text_chunks (corpus_state no_registry (bulk_case 5001) "c")) /\
  exists c1 cs,
    r_add_calls (build_and_index_case_corpus no_registry (bulk_case 5001) "c") = c1 :: cs /\
    cs <> [] /\
    a_ids c1 = embed_ids "c" max_batch /\
    (forall c id, In c cs -> In id (a_ids c) -> In id (a_ids c1)) /\
    ~ NoDup (ingested_ids no_registry (bulk_case 5001) "c").
Proof.
  assert (H : max_batch < length (text_chunks (corpus_state no_registry (bulk_case 5001) "c")))
    by (apply Nat.ltb_lt; vm_compute; reflexivity).
  split; [exact H | exact (corpus_batches_ids_collide no_registry (bulk_case 5001) "c" H)].
Defined.

(** X4: Every chunk a run indexes is non-empty and already stripped, and every
    metadata dict it stores names the run's case and one of the sources
    ["evtx"], ["registry"], ["file"]. *)
Theorem corpus_chunks_clean (gen : list string -> Z * string) (case_dir : case_files)
    (case_id : string) :
  let r := build_and_index_case_corpus gen case_dir case_id in
  Forall chunk_ok (r_text_chunks r) /\
  Forall (meta_ok case_id) (concat (map a_metadatas (r_add_calls r))).
Proof.
  cbv zeta.
  destruct (corpus_batches_partition_aux gen case_dir case_id) as (-> & _ & _ & -> & _).
  destruct (corpus_state_inv gen case_dir case_id) as (_ & Hc & Hm & _).
  split; assumption.
Qed.

(** X5: [registry_summaries.jsonl] holds exactly the registry chunks the run
    sends to the store, in the order sent, each followed by a newline. *)
Theorem registry_summary_contents (gen : list string -> Z * string) (case_dir : case_files)
    (case_id : string) :
  let r := build_and_index_case_corpus gen case_dir case_id in
  registry_summaries_jsonl r =
  registry_summary_of (combine (concat (map a_documents (r_add_calls r)))
                               (concat (map a_metadatas (r_add_calls r)))).
Proof.
  cbv zeta.
  destruct (corpus_batches_partition_aux gen case_dir case_id) as (_ & _ & -> & -> & _).
  destruct (corpus_state_inv gen case_dir case_id) as (_ & _ & _ & Hs).
  rewrite <- Hs, build_and_index_unfold. cbv zeta.
  destruct (text_chunks (corpus_state gen case_dir case_id)); reflexivity.
Qed.



(** ** Failures of [build_timeline] *)

Lemma for_each_fails {A S : Type} (l : list A) (st : S) (body : S -> A -> res S) (x : A) :
  In x l -> (forall s, exists e, body s x = Err e) -> exists e, for_each l st body = Err e.
Proof.
  revert st; induction l as [|y l IH]; intros st; simpl; [contradiction|].
  intros [<- | Hin] Hx.
  - destruct (Hx st) as [e He]. rewrite He. exists e. reflexivity.
  - destruct (body st y) as [s'|e]; simpl; [apply IH; auto | exists e; reflexivity].
Qed.

Lemma jsonl_loop_fails (files : listing) (body : list entry -> jline -> res (list entry))
    (f : string * list jline) (l : jline) :
  In f files -> endswith (lower (fst f)) ".jsonl" = true -> In l (snd f) ->
  (forall acc, exists e, body acc l = Err e) ->
  exists e, jsonl_loop files body = Err e.
Proof.
  intros Hf Hname Hl Hbody. unfold jsonl_loop. apply (for_each_fails _ _ _ f Hf).
  intros acc. rewrite Hname. apply (for_each_fails _ _ _ l Hl Hbody).
Qed.

Lemma build_timeline_evtx_fails (iso : string -> res datetime) (c : timeline_case) :
  (exists e, _load_evtx_events iso c = Err e) -> exists e, build_timeline iso c = Err e.
Proof.
  intros [e He]. unfold build_timeline, build_timeline_sorted. rewrite He. exists e. reflexivity.
Qed.

Lemma build_timeline_registry_fails (iso : string -> res datetime) (c : timeline_case) :
  (exists e, _load_registry_events iso c = Err e) -> exists e, build_timeline iso c = Err e.
Proof.
  intros [e He]. unfold build_timeline, build_timeline_sorted.
  destruct (_load_evtx_events iso c); simpl; [rewrite He|]; eexists; reflexivity.
Qed.

Lemma get_non_object (v : json) (k : string) :
  (forall kvs, v <> JObj kvs) -> get v k = Err AttributeError.
Proof.
  intros H. destruct v; try reflexivity. exfalso. eapply H. reflexivity.
Qed.


Lemma evtx_pieces_non_object (d : json) :
  (forall kvs, d <> JObj kvs) -> exists e, evtx_pieces d = Err e.
Proof.
  intros Hd. unfold evtx_pieces.
  assert (Hget : forall k, py_getitem d k = Err TypeError)
    by (intros k; destruct d; try reflexivity; exfalso; eapply Hd; reflexivity).
  destruct (for_each EVTX_KEYS [] _) as [pieces|e] eqn:E; simpl; [|eauto].
  assert (Hnil : pieces = []).
  { revert E. apply (for_each_inv (fun p : list string => p = [])); [|reflexivity].
    intros st key st' -> Hrun.
    destruct (py_contains d key) as [[|]|e]; simpl in Hrun; [|congruence|discriminate].
    rewrite Hget in Hrun. discriminate. }
  subst pieces. destruct d; try (eexists; reflexivity). exfalso. eapply Hd. reflexivity.
Qed.

(** X8: A [.jsonl] line of either derivative directory that [json.loads]
    accepts but that is not a JSON object (a list, string, number, [true],
    [false] or [null]) makes [build_timeline] raise: the loop calls [.get]
    on it outside any [try]. *)
Theorem timeline_non_object_line_fails (iso : string -> res datetime) (c : timeline_case)
    (dir : listing) (f : string * list jline) (v : json) :
  (evtx_dir c = Some (Ok dir) \/ registry_dir c = Some (Ok dir)) ->
  In f dir -> endswith (lower (fst f)) ".jsonl" = true -> In (JLValue v) (snd f) ->
  (forall kvs, v <> JObj kvs) ->
  exists e, build_timeline iso c = Err e.
Proof.
  intros [Hd | Hd] Hf Hname Hl Hv.
  - apply build_timeline_evtx_fails. unfold _load_evtx_events. rewrite Hd. cbn [bind].
    apply (jsonl_loop_fails dir _ f _ Hf Hname Hl). intros acc.
    cbn [evtx_line]. rewrite get_non_object by exact Hv. eexists. reflexivity.
  - apply build_timeline_registry_fails. unfold _load_registry_events. rewrite Hd. cbn [bind].
    apply (jsonl_loop_fails dir _ f _ Hf Hname Hl). intros acc.
    cbn [registry_line]. rewrite get_non_object by exact Hv. eexists. reflexivity.
Qed.

Lemma timeline_non_object_line_fails_witness :
  exists e, build_timeline py_fromisoformat (evtx_case [JArr [JNum 1]]) = Err e.
Proof.
  apply (timeline_non_object_line_fails py_fromisoformat (evtx_case [JArr [JNum 1]])
           [("Security.jsonl", [JLValue (JArr [JNum 1])])]
           ("Security.jsonl", [JLValue (JArr [JNum 1])]) (JArr [JNum 1])).
  - left. reflexivity.
  - left. reflexivity.
  - vm_compute. reflexivity.
  - left. reflexivity.
  - intros kvs H. discriminate H.
Defined.

(** X9: An event-log record whose timestamp parses but whose ["data"] is a
    non-empty value other than an object (a string, a number, [true], a
    list) makes [build_timeline] raise: the key loop applies [in] and
    [data[key]], or the fallback calls [data.items()], on it. *)
Theorem evtx_non_object_data_fails (iso : string -> res datetime) (c : timeline_case)
    (dir : listing) (f : string * list jline) (kvs : list (string * json))
    (t d : json) (dt : datetime) :
  evtx_dir c = Some (Ok dir) ->
  In f dir -> endswith (lower (fst f)) ".jsonl" = true -> In (JLValue (JObj kvs)) (snd f) ->
  assoc_lookup "timestamp" kvs = Some t -> _parse_timestamp iso t = Ok (Some dt) ->
  assoc_lookup "data" kvs = Some d -> truthy d = true -> (forall kvs', d <> JObj kvs') ->
  exists e, build_timeline iso c = Err e.
Proof.
  intros Hd Hf Hname Hl Ht Hp Hdata Htr Hno.
  apply build_timeline_evtx_fails. unfold _load_evtx_events. rewrite Hd. cbn [bind].
  apply (jsonl_loop_fails dir _ f _ Hf Hname Hl). intros acc.
  cbn [evtx_line]. rewrite !get_obj, Ht. cbn [bind]. rewrite Hp. cbn [bind].
  rewrite Hdata. replace (py_or d (JObj [])) with d by (unfold py_or; rewrite Htr; reflexivity). unfold evtx_description.
  destruct (evtx_pieces_non_object d Hno) as [e He]. rewrite He. cbn [bind].
  exists e. reflexivity.
Qed.

Lemma evtx_non_object_data_fails_witness :
  exists e, build_timeline py_fromisoformat
              (evtx_case [JObj [("timestamp", JStr "2024-01-02T10:00:00");
                                ("data", JStr "LogonType=3")]]) = Err e.
Proof.
  apply (evtx_non_object_data_fails py_fromisoformat
           (evtx_case [JObj [("timestamp", JStr "2024-01-02T10:00:00");
                             ("data", JStr "LogonType=3")]])
           [("Security.jsonl", [JLValue (JObj [("timestamp", JStr "2024-01-02T10:00:00");
                                                ("data", JStr "LogonType=3")])])]
           ("Security.jsonl", [JLValue (JObj [("timestamp", JStr "2024-01-02T10:00:00");
                                               ("data", JStr "LogonType=3")])])
           [("timestamp", JStr "2024-01-02T10:00:00"); ("data", JStr "LogonType=3")]
           (JStr "2024-01-02T10:00:00") (JStr "LogonType=3") (naive 2024 1 2 10 0 0)).
  - reflexivity.
  - left. reflexivity.
  - vm_compute. reflexivity.
  - left. reflexivity.
  - reflexivity.
  - vm_compute. reflexivity.
  - reflexivity.
  - reflexivity.
  - intros kvs' H. discriminate H.
Defined.

(** ** What the timeline loaders read *)


Lemma for_each_grow {A S : Type} (l : list A) (acc : list S) (body : list S -> A -> res (list S))
    (cnt : A -> nat) :
  (forall acc x, In x l -> exists acc', body acc x = Ok acc' /\ length acc' = length acc + cnt x) ->
  exists r, for_each l acc body = Ok r /\ length r = length acc + list_sum (map cnt l).
Proof.
  revert acc; induction l as [|x l IH]; intros acc Hb; simpl.
  - exists acc. split; [reflexivity | lia].
  - destruct (Hb acc x (or_introl eq_refl)) as (acc' & -> & Hlen). simpl.
    destruct (IH acc') as (r & -> & Hr); [intros a y Hy; apply Hb; right; exact Hy|].
    exists r. split; [reflexivity | lia].
Qed.

Lemma registry_line_object (iso : string -> res datetime) (acc : list entry)
    (kvs : list (string * json)) :
  exists e, registry_line iso acc (JLValue (JObj kvs)) = Ok (acc ++ [e])%list.
Proof.
  cbn [registry_line]. rewrite !get_obj. cbn [bind]. unfold dict_get. cbn [bind].
  destruct (assoc_lookup "value" kvs); cbn [bind];
  match goal with
  | |- context [bind (match ?lw with JStr _ => _ | _ => _ end) _] =>
      destruct lw; cbn [bind];
      try (destruct (parse_timestamp_ok iso (JStr s)) as [[dt|] ->]; cbn [bind])
  end; eexists; reflexivity.
Qed.

(** X10: Unlike the event-log loader, the registry loader drops no record:
    when the registry directory can be listed, its [.jsonl] entries open and
    decode as UTF-8 without error, and every line [json.loads] accepts in
    them is an object, it returns one event per such line, whatever fields
    the objects have or lack. *)
Theorem registry_records_all_kept (iso : string -> res datetime) (c : timeline_case)
    (dir : listing) :
  registry_dir c = Some (Ok dir) ->
  (forall f l, In f dir -> is_jsonl_file f = true -> In l (snd f) ->
     match l with
     | JLValue v => exists kvs, v = JObj kvs
     | JLReadError _ => False
     | JLBlank | JLMalformed => True
     end) ->
  exists es, _load_registry_events iso c = Ok es /\ length es = jsonl_value_count dir.
Proof.
  intros Hd Hobj. unfold _load_registry_events, jsonl_loop, jsonl_value_count. rewrite Hd.
  cbn [bind].
  destruct (for_each_grow dir [] (fun acc f =>
              if negb (endswith (lower (fst f)) ".jsonl") then Ok acc
              else for_each (snd f) acc (registry_line iso))
              (fun f => if is_jsonl_file f then length (filter is_value (snd f)) else 0))
    as (r & Hr & Hlen).
  - intros acc f Hf. unfold is_jsonl_file.
    destruct (endswith (lower (fst f)) ".jsonl") eqn:Hn; cbn [negb].
    + destruct (for_each_grow (snd f) acc (registry_line iso)
                  (fun l => if is_value l then 1 else 0)) as (r & Hr & Hlen).
      * intros acc' l Hl. specialize (Hobj f l Hf Hn Hl).
        destruct l as [| |v|?]; cbn [registry_line is_value]; [| | |contradiction].
        -- exists acc'. split; [reflexivity | lia].
        -- exists acc'. split; [reflexivity | lia].
        -- destruct Hobj as [kvs ->].
           destruct (registry_line_object iso acc' kvs) as [e He].
           exists (acc' ++ [e])%list. rewrite length_app. split; [exact He | simpl; lia].
      * exists r. split; [exact Hr|]. rewrite Hlen. f_equal.
        clear. induction (snd f) as [|l ls IH]; [reflexivity|].
        destruct l; simpl; rewrite IH; reflexivity.
    + exists acc. split; [reflexivity | lia].
  - exists r. split; [exact Hr | exact Hlen].
Qed.

Lemma registry_records_all_kept_witness :
  exists es, _load_registry_events py_fromisoformat
               (registry_case [registry_record (JStr "x") None;
                               registry_record (JNum 1) (Some "2024-01-02")]) = Ok es /\
             length es = 2.
Proof.
  destruct (registry_records_all_kept py_fromisoformat
              (registry_case [registry_record (JStr "x") None;
                              registry_record (JNum 1) (Some "2024-01-02")])
              [("SOFTWARE.jsonl", map JLValue [registry_record (JStr "x") None;
                                                registry_record (JNum 1) (Some "2024-01-02")])]
              eq_refl) as (es & Hes & Hlen).
  - intros f l [<- | []] _ Hl. cbn [snd map In] in Hl.
    destruct Hl as [<- | [<- | []]]; eexists; reflexivity.
  - exists es. split; [exact Hes | rewrite Hlen; vm_compute; reflexivity].
Defined.

Lemma for_each_filter_kept (lines : list jline) (acc : list entry)
    (body : list entry -> jline -> res (list entry)) :
  (forall acc, body acc JLBlank = Ok acc) -> (forall acc, body acc JLMalformed = Ok acc) ->
  for_each (filter is_kept lines) acc body = for_each lines acc body.
Proof.
  intros Hb Hm. revert acc; induction lines as [|l ls IH]; intros acc; [reflexivity|].
  destruct l as [| |v|e]; cbn [filter is_kept for_each];
    [rewrite Hb; cbn [bind]; apply IH | rewrite Hm; cbn [bind]; apply IH | |];
    match goal with
    | |- bind ?m _ = bind ?m _ => destruct m; cbn [bind]; [apply IH | reflexivity]
    end.
Qed.

Lemma jsonl_loop_clean (dir : listing) (body : list entry -> jline -> res (list entry)) :
  (forall acc, body acc JLBlank = Ok acc) -> (forall acc, body acc JLMalformed = Ok acc) ->
  jsonl_loop (clean_listing dir) body = jsonl_loop dir body.
Proof.
  intros Hb Hm. unfold jsonl_loop, clean_listing. generalize (@nil entry) as acc.
  induction dir as [|f dir IH]; intros acc; [reflexivity|].
  cbn [filter]. unfold is_jsonl_file at 1.
  destruct (endswith (lower (fst f)) ".jsonl") eqn:Hn; cbn [map for_each fst snd negb].
  - rewrite Hn. cbn [negb]. rewrite (for_each_filter_kept _ _ _ Hb Hm).
    destruct (for_each (snd f) acc body); cbn [bind]; [apply IH | reflexivity].
  - rewrite Hn. cbn [negb bind]. apply IH.
Qed.

(** X11: [build_timeline] depends only on the values [json.loads] returns for
    the lines of the [.jsonl] entries and on the read errors met there:
    without the other entries, the blank lines and the lines [json.loads]
    rejects, it returns the same timeline (or raises the same exception). *)
Theorem build_timeline_clean (iso : string -> res datetime) (c : timeline_case) :
  build_timeline iso (clean_case c) = build_timeline iso c.
Proof.
  unfold build_timeline, build_timeline_sorted, _load_evtx_events, _load_registry_events,
    clean_case.
  cbn [evtx_dir registry_dir].
  destruct (evtx_dir c) as [[d1|e1]|]; destruct (registry_dir c) as [[d2|e2]|];
    cbn [clean_dir option_map bind]; rewrite ?jsonl_loop_clean by reflexivity; reflexivity.
Qed.

(** X12: The sort is stable: events with the same sort key (equal instants, or
    the [UNKNOWN_TIME] key of the registry events without a usable
    [last_write]) keep the order in which the loaders produced them, the
    event-log events first, each directory in file and line order. *)
Theorem build_timeline_stable (iso : string -> res datetime) (c : timeline_case)
    (ents : list entry) :
  build_timeline_sorted iso c = Ok ents ->
  exists evtx reg,
    _load_evtx_events iso c = Ok evtx /\ _load_registry_events iso c = Ok reg /\
    build_timeline iso c = Ok (map pop_sort_ts ents) /\
    forall k, filter (same_key k) ents = filter (same_key k) (evtx ++ reg)%list.
Proof.
  intros H. destruct (build_timeline_sorted_spec iso c ents H) as (evtx & reg & He & Hr & ->).
  exists evtx, reg. split; [exact He|]. split; [exact Hr|].
  split; [unfold build_timeline; rewrite H; reflexivity|].
  intros k. apply sort_by_ts_stable.
Qed.

Lemma build_timeline_stable_witness :
  exists ents, build_timeline_sorted py_fromisoformat
    (evtx_case [evtx_record "2024-01-02T10:00:00"; evtx_record "2024-01-02T10:00:00+02:00"])
    = Ok ents /\
  exists evtx reg,
    _load_evtx_events py_fromisoformat
      (evtx_case [evtx_record "2024-01-02T10:00:00"; evtx_record "2024-01-02T10:00:00+02:00"])
      = Ok evtx /\
    _load_registry_events py_fromisoformat
      (evtx_case [evtx_record "2024-01-02T10:00:00"; evtx_record "2024-01-02T10:00:00+02:00"])
      = Ok reg /\
    build_timeline py_fromisoformat
      (evtx_case [evtx_record "2024-01-02T10:00:00"; evtx_record "2024-01-02T10:00:00+02:00"])
      = Ok (map pop_sort_ts ents) /\
    forall k, filter (same_key k) ents = filter (same_key k) (evtx ++ reg)%list.
Proof.
  destruct (build_timeline_sorted py_fromisoformat
    (evtx_case [evtx_record "2024-01-02T10:00:00"; evtx_record "2024-01-02T10:00:00+02:00"]))
    as [ents|e] eqn:E; [|vm_compute in E; discriminate].
  exists ents. split; [reflexivity|].
  exact (build_timeline_stable py_fromisoformat _ ents E).
Defined.

(** ** Outcome of [semantic_search] *)

Lemma for_each_seq_err {S : Type} (k n j : nat) (acc : S) (body : S -> nat -> res S) (e : exn) :
  k <= j < k + n ->
  (forall acc i, k <= i < j -> exists acc', body acc i = Ok acc') ->
  (forall acc, body acc j = Err e) ->
  for_each (seq k n) acc body = Err e.
Proof.
  revert k acc; induction n as [|n IH]; intros k acc Hj Hok Herr; [lia|].
  cbn [seq for_each]. destruct (Nat.eq_dec k j) as [<- | Hne].
  - rewrite Herr. reflexivity.
  - destruct (Hok acc k ltac:(lia)) as [acc' ->]. cbn [bind].
    apply IH; [lia | intros a i Hi; apply Hok; lia | exact Herr].
Qed.

Lemma list_sum_ones {A : Type} (l : list A) : list_sum (map (fun _ => 1) l) = length l.
Proof. induction l as [|a l IH]; simpl; [reflexivity | rewrite IH; reflexivity]. Qed.

Lemma index_some {A : Type} (l : list A) (i : nat) (a : A) :
  nth_error l i = Some a -> index l i = Ok a.
Proof. unfold index. intros ->. reflexivity. Qed.

Lemma nth_error_lt {A : Type} (l : list A) (i : nat) (a : A) :
  nth_error l i = Some a -> i < length l.
Proof. intros H. apply nth_error_Some. congruence. Qed.

(** X14: [semantic_search] succeeds exactly when the reply has an [ids] row and
    its [distances], [documents] and [metadatas] rows are at least as long
    (the other rows are not read when the [ids] row is empty); it then
    returns one hit per id.  Otherwise it raises [IndexError]. *)
Theorem semantic_search_outcome {D M : Type} (r : @query_result D M) :
  match nth_error (q_ids r) 0 with
  | None => semantic_search r = Err IndexError
  | Some ids0 =>
      if Nat.eqb (length ids0) 0 ||
         (Nat.leb (length ids0) (row_len (q_distances r)) &&
          Nat.leb (length ids0) (row_len (q_documents r)) &&
          Nat.leb (length ids0) (row_len (q_metadatas r)))
      then exists hits, semantic_search r = Ok [("results", hits)] /\ length hits = length ids0
      else semantic_search r = Err IndexError
  end.
Proof.
  destruct (nth_error (q_ids r) 0) as [ids0|] eqn:Hq;
    [|unfold semantic_search, index; rewrite Hq; reflexivity].
  unfold semantic_search. rewrite (index_some (q_ids r) 0 ids0 Hq). cbn [bind].
  match goal with |- context [for_each _ [] ?b] => set (body := b) end.
  set (m := Nat.min (row_len (q_distances r)) (Nat.min (row_len (q_documents r))
                                                      (row_len (q_metadatas r)))).
  assert (Hstep : forall acc i, i < length ids0 ->
            (i < m -> exists h, body acc i = Ok (acc ++ [h])%list) /\
            (m <= i -> body acc i = Err IndexError)).
  { intros acc i Hi. subst body m. unfold row_len. cbn beta. unfold index. rewrite ?Hq.
    cbn [bind].
    destruct (nth_error ids0 i) as [id|] eqn:Ei; [|apply nth_error_None in Ei; lia].
    cbn [bind].
    destruct (nth_error (q_distances r) 0) as [ds|]; cbn [bind]; [|split; [lia | reflexivity]].
    destruct (nth_error ds i) as [d|] eqn:Ed; cbn [bind];
      [apply nth_error_lt in Ed | apply nth_error_None in Ed; split; [lia | reflexivity]].
    destruct (nth_error (q_documents r) 0) as [docs|]; cbn [bind]; [|split; [lia | reflexivity]].
    destruct (nth_error docs i) as [doc|] eqn:Eo; cbn [bind];
      [apply nth_error_lt in Eo | apply nth_error_None in Eo; split; [lia | reflexivity]].
    destruct (nth_error (q_metadatas r) 0) as [ms|]; cbn [bind]; [|split; [lia | reflexivity]].
    destruct (nth_error ms i) as [mt|] eqn:Em; cbn [bind];
      [apply nth_error_lt in Em | apply nth_error_None in Em; split; [lia | reflexivity]].
    split; [eexists; reflexivity | lia]. }
  destruct (Nat.eqb (length ids0) 0 || _) eqn:Hc.
  - assert (Hn : length ids0 <= m).
    { subst m. apply orb_true_iff in Hc as [Hc | Hc];
        [apply Nat.eqb_eq in Hc; lia|].
      apply andb_true_iff in Hc as [Hc H3]. apply andb_true_iff in Hc as [H1 H2].
      apply Nat.leb_le in H1, H2, H3. lia. }
    destruct (for_each_grow (seq 0 (length ids0)) [] body (fun _ => 1)) as (hits & Hh & Hlen).
    + intros acc i Hi. apply in_seq in Hi.
      destruct (proj1 (Hstep acc i ltac:(lia)) ltac:(lia)) as [h Hb].
      exists (acc ++ [h])%list. rewrite length_app. split; [exact Hb | reflexivity].
    + rewrite Hh. cbn [bind]. exists hits. split; [reflexivity|].
      rewrite list_sum_ones, length_seq in Hlen. exact Hlen.
  - assert (Hm : m < length ids0).
    { subst m. apply orb_false_iff in Hc as [H0 Hc]. apply Nat.eqb_neq in H0.
      apply andb_false_iff in Hc as [Hc | H3]; [apply andb_false_iff in Hc as [H1 | H2]|];
        rewrite ?Nat.leb_gt in *; lia. }
    rewrite (for_each_seq_err 0 (length ids0) m [] body IndexError); [reflexivity | lia | |].
    + intros acc i Hi. destruct (proj1 (Hstep acc i ltac:(lia)) ltac:(lia)) as [h Hb]. eauto.
    + intros acc. apply (proj2 (Hstep acc m Hm)). lia.
Qed.

(** ** Event-log text derivatives in the walk *)

Lemma add_lines_chunks (lines : list string) (st : ingest_state) (m : meta) :
  let st' := fold_left (fun st raw =>
               let line := strip raw in
               if String.eqb line "" then st else add_chunk st line m) lines st in
  text_chunks st' =
    (text_chunks st ++ filter (fun l => negb (String.eqb l "")) (map strip lines))%list /\
  metadata_list st' =
    (metadata_list st ++ repeat m (length (filter (fun l => negb (String.eqb l "")) (map strip lines))))%list.
Proof.
  cbv zeta. revert st; induction lines as [|raw lines IH]; intros st; cbn [fold_left map filter].
  - rewrite !app_nil_r. split; reflexivity.
  - destruct (IH (if String.eqb (strip raw) "" then st else add_chunk st (strip raw) m))
      as [H1 H2].
    rewrite H1, H2. destruct (String.eqb (strip raw) ""); cbn [negb]; [split; reflexivity|].
    unfold add_chunk; cbn [text_chunks metadata_list length repeat].
    rewrite <- !app_assoc. split; reflexivity.
Qed.

(** X7: A [.txt] file of [artifacts/evtx] is indexed twice: line by line in
    step 1 (source ["evtx"]) and again whole by the walk, which treats it
    as a text file (source ["file"]).  For a case holding just that file,
    the chunks are its non-blank stripped lines followed by its whole
    contents as [f.read()] returns them (line endings read as ["\n"]),
    stripped. *)
Theorem evtx_txt_indexed_twice (gen : list string -> Z * string) (fname contents case_id : string) :
  endswith fname ".txt" = true -> lower (splitext_ext fname) = ".txt" ->
  String.eqb (strip (read_text contents)) "" = false ->
  let r := build_and_index_case_corpus gen [(["artifacts"; "evtx"; fname], contents)] case_id in
  let lines := filter (fun l => negb (String.eqb l "")) (map strip (file_lines contents)) in
  r_text_chunks r = (lines ++ [strip (read_text contents)])%list /\
  map m_source (concat (map a_metadatas (r_add_calls r))) =
    (repeat "evtx" (length lines) ++ ["file"])%list.
Proof.
  intros Htxt Hext Hne. cbv zeta.
  destruct (corpus_batches_partition_aux gen [(["artifacts"; "evtx"; fname], contents)] case_id)
    as (-> & _ & _ & -> & _).
  unfold corpus_state, index_evtx_txt. cbn [evtx_txt_listing fold_left fst snd].
  rewrite Htxt. cbn [negb].
  destruct (add_lines_chunks (file_lines contents) (mk_ingest_state [] [] "" "")
              (mk_meta "evtx" case_id ("artifacts/evtx/" ++ fname))) as [H1 H2].
  cbv zeta in H1, H2.
  set (st := fold_left _ (file_lines contents) (mk_ingest_state [] [] "" "")) in *.
  assert (Hsum : mem_str fname ["evtx_summaries.jsonl"; "registry_summaries.jsonl"] = false).
  { unfold mem_str. cbn [existsb].
    destruct (String.eqb fname "evtx_summaries.jsonl") eqn:E1;
      [apply String.eqb_eq in E1; subst fname; discriminate Htxt|].
    destruct (String.eqb fname "registry_summaries.jsonl") eqn:E2;
      [apply String.eqb_eq in E2; subst fname; discriminate Htxt|].
    reflexivity. }
  unfold walk_file. cbn [last]. rewrite Hsum, Hext. cbn [mem_str existsb String.eqb].
  replace (mem_str ".txt" REGISTRY_EXTENSIONS) with false by reflexivity.
  replace (mem_str ".txt" TEXT_EXTENSIONS) with true by reflexivity.
  rewrite Hne. unfold add_chunk. cbn [text_chunks metadata_list].
  rewrite H1, H2. cbn [app]. split; [reflexivity|].
  rewrite !map_app, map_repeat. reflexivity.
Qed.

Lemma evtx_txt_indexed_twice_witness :
  let r := build_and_index_case_corpus no_registry
             [(["artifacts"; "evtx"; "Security.txt"], crlf_log)] "c" in
  let lines := filter (fun l => negb (String.eqb l "")) (map strip (file_lines crlf_log)) in
  r_text_chunks r = (lines ++ [strip (read_text crlf_log)])%list /\
  map m_source (concat (map a_metadatas (r_add_calls r))) =
    (repeat "evtx" (length lines) ++ ["file"])%list.
Proof.
  apply evtx_txt_indexed_twice; vm_compute; reflexivity.
Defined.

(** ** Naive instants in the timeline *)

Lemma parse_timestamp_naive (iso : string -> res datetime) (t : json) (dt : datetime) :
  _parse_timestamp iso t = Ok (Some dt) -> tzinfo dt = None.
Proof.
  unfold _parse_timestamp. destruct (negb (truthy t)); [discriminate|].
  unfold try_except. destruct (fromisoformat_any iso t) as [d|e]; cbn [bind]; [|discriminate].
  intros H. injection H as <-. destruct (tzinfo d) eqn:E; [destruct d; reflexivity | exact E].
Qed.

Lemma evtx_line_naive (iso : string -> res datetime) (acc : list entry) (l : jline)
    (acc' : list entry) :
  Forall entry_naive acc -> evtx_line iso acc l = Ok acc' -> Forall entry_naive acc'.
Proof.
  intros Hacc Hrun. destruct l as [| |evt|?]; simpl in Hrun;
    try (inversion Hrun; subst; exact Hacc).
  inv_bind.
  match type of Hrun with
  | context [match ?x with Some _ => _ | None => _ end] => destruct x as [ts|]
  end.
  - match goal with H : _parse_timestamp _ _ = Ok (Some _) |- _ => apply parse_timestamp_naive in H end.
    inv_bind. inversion Hrun; subst.
    apply Forall_app; split; [exact Hacc|]. repeat constructor; assumption.
  - inversion Hrun; subst; exact Hacc.
Qed.

Lemma registry_line_naive (iso : string -> res datetime) (acc : list entry) (l : jline)
    (acc' : list entry) :
  Forall entry_naive acc -> registry_line iso acc l = Ok acc' -> Forall entry_naive acc'.
Proof.
  intros Hacc Hrun. destruct l as [| |evt|?]; simpl in Hrun;
    try (inversion Hrun; subst; exact Hacc).
  inv_bind.
  match type of Hrun with
  | context [match ?x with Some _ => _ | None => _ end] => destruct x as [t|]
  end.
  - match goal with
    | H : match ?lw with JStr _ => _ | _ => _ end = Ok (Some _) |- _ =>
        destruct lw; try discriminate H; apply parse_timestamp_naive in H
    end.
    inversion Hrun; subst. apply Forall_app; split; [exact Hacc|].
    repeat constructor; assumption.
  - inversion Hrun; subst. apply Forall_app; split; [exact Hacc|].
    repeat constructor.
Qed.

(** X13: Every event [build_timeline] sorts has a naive sort key, and every
    known timestamp it returns is naive, whatever offsets the derivative
    files carry: the sort never compares an aware datetime with a naive
    one. *)
Theorem build_timeline_naive (iso : string -> res datetime) (c : timeline_case)
    (ents : list entry) :
  build_timeline_sorted iso c = Ok ents ->
  Forall entry_naive ents /\
  build_timeline iso c = Ok (map pop_sort_ts ents) /\
  Forall (fun ev => match timestamp ev with TKnown dt => tzinfo dt = None | TUnknownTime => True end)
    (map pop_sort_ts ents).
Proof.
  intros H. destruct (build_timeline_sorted_spec iso c ents H) as (evtx & reg & He & Hr & Hents).
  assert (Hn : Forall entry_naive ents).
  { rewrite Hents. apply (Permutation_Forall (proj1 (sort_by_ts_spec _))).
    apply Forall_app. split.
    - revert He. unfold _load_evtx_events. destruct (evtx_dir c) as [[files|?]|].
      + cbn [bind]. apply jsonl_loop_inv. apply evtx_line_naive.
      + intro E; discriminate E.
      + intro E; inversion E; constructor.
    - revert Hr. unfold _load_registry_events. destruct (registry_dir c) as [[files|?]|].
      + cbn [bind]. apply jsonl_loop_inv. apply registry_line_naive.
      + intro E; discriminate E.
      + intro E; inversion E; constructor. }
  split; [exact Hn|]. split; [unfold build_timeline; rewrite H; reflexivity|].
  apply Forall_map. eapply Forall_impl; [|exact Hn]. intros e [_ He']. exact He'.
Qed.

Lemma build_timeline_naive_witness :
  exists ents, build_timeline_sorted py_fromisoformat mixed_case = Ok ents /\
  Forall entry_naive ents /\
  build_timeline py_fromisoformat mixed_case = Ok (map pop_sort_ts ents) /\
  Forall (fun ev => match timestamp ev with TKnown dt => tzinfo dt = None | TUnknownTime => True end)
    (map pop_sort_ts ents).
Proof.
  destruct (build_timeline_sorted py_fromisoformat mixed_case) as [ents|e] eqn:E;
    [|vm_compute in E; discriminate].
  exists ents. split; [reflexivity|].
  exact (build_timeline_naive py_fromisoformat mixed_case ents E).
Defined.

(** ** The event-log description of a [data] dict *)

Lemma evtx_key_loop (kvs : list (string * json)) (keys : list string) (acc : list string) :
  for_each keys acc (fun pieces key =>
      let* b := py_contains (JObj kvs) key in
      if b then
        let* v := py_getitem (JObj kvs) key in
        Ok (if truthy v then app pieces [kv_piece key v] else pieces)
      else Ok pieces) =
  Ok (acc ++ flat_map (fun key => match assoc_lookup key kvs with
                                  | Some v => if truthy v then [kv_piece key v] else []
                                  | None => []
                                  end) keys)%list.
Proof.
  revert acc; induction keys as [|key keys IH]; intros acc; cbn [for_each flat_map].
  - rewrite app_nil_r. reflexivity.
  - unfold py_contains, py_getitem. destruct (assoc_lookup key kvs) as [v|]; cbn [bind].
    + destruct (truthy v); rewrite IH; [rewrite <- app_assoc|]; reflexivity.
    + rewrite IH. reflexivity.
Qed.

Lemma evtx_items_loop (l : list (string * json)) (acc : list string) :
  fold_left (fun pieces kv =>
      if truthy (snd kv) then app pieces [kv_piece (fst kv) (snd kv)] else pieces) l acc =
  (acc ++ flat_map (fun kv => if truthy (snd kv) then [kv_piece (fst kv) (snd kv)] else []) l)%list.
Proof.
  revert acc; induction l as [|kv l IH]; intros acc; cbn [fold_left flat_map].
  - rewrite app_nil_r. reflexivity.
  - rewrite IH. destruct (truthy (snd kv)); [rewrite <- app_assoc|]; reflexivity.
Qed.

(** X15: For a [data] dict the description's pieces never raise: they are the
    non-empty values of the nine known keys, in the order of the key
    tuple; only when there is none, the non-empty values among the first
    five items of the dict (later items never appear). *)
Theorem evtx_pieces_dict (kvs : list (string * json)) :
  let known := flat_map (fun key => match assoc_lookup key kvs with
                                    | Some v => if truthy v then [kv_piece key v] else []
                                    | None => []
                                    end) EVTX_KEYS in
  evtx_pieces (JObj kvs) =
  Ok (match known with
      | [] => flat_map (fun kv => if truthy (snd kv) then [kv_piece (fst kv) (snd kv)] else [])
                (firstn 5 kvs)
      | _ => known
      end).
Proof.
  cbv zeta. unfold evtx_pieces. rewrite evtx_key_loop. cbn [app bind].
  destruct (flat_map _ EVTX_KEYS); [|reflexivity].
  cbn [py_items bind]. rewrite evtx_items_loop. reflexivity.
Qed.
